(** * OKX public WebSocket client: buffering, rotation and reconnect

    Shallow embedding of [src/okx.py] (classes [Subscription],
    [WriterConfig], [ClientConfig], [RollingJsonWriter] and
    [OkxPublicWSClient]) together with the properties of the streaming
    ingestion core.

    Conventions of the embedding

    - A value produced by [json.loads] is a [json] term.  Python integers
      are [Z]; the model has no constructor for Python floats (JSON
      literals with a fraction or an exponent, [NaN], [Infinity]).
    - A Python [dict] is an association list kept in insertion order, with
      Python's update rule (assigning to a present key keeps its position
      and its stored key object).
    - Exceptions are values of [exn]; a function that may raise returns a
      [res] next to the state it leaves behind.
    - The network, the clock and the disk are inputs: a connection attempt is
      described by an [attempt] record, clock readings are arguments, and
      the disk is part of the [world] record, with a per-path fault oracle.
    - asyncio tasks are interleaved only at [await].  The reconnect loop of
      [run_forever] and the poll loop of [_flush_loop] are modelled one
      task at a time: they share [_buffers] and [_stop] only, and each is a
      function of the inputs it consumes (connection attempts, clock
      readings).  The keepalive task belongs to the connection attempt:
      [_connect_once_tasks] is [_connect_once] with the task and with the
      [finally] clause that cancels it, and [run_forever_tasks] is the
      reconnect loop over it.  [_connect_once] and [run_forever] are the
      same functions up to the creation of the task: they are what the
      source does in the attempts that end before [asyncio.create_task],
      and nothing is stated with them about the other attempts. *)

From Stdlib Require Import ZArith QArith List String Ascii Bool Lia.
From Stdlib Require Import DecimalString.
Import ListNotations.

Local Open Scope string_scope.
Local Open Scope list_scope.
Local Open Scope Z_scope.

(* ------------------------------------------------------------------ *)
(** ** Python values *)

#[warnings="-register-all"]
Inductive json : Type :=
| JNull
| JBool (b : bool)
| JInt (z : Z)
| JStr (s : string)
| JArr (l : list json)
| JObj (o : list (string * json)).

(** Exceptions the modelled code can raise or receive. *)
Inductive exn : Type :=
| AssertionError
| AttributeError
| TypeError
| KeyError
| OSError
| ConnectionError.

Inductive res (A : Type) : Type :=
| Ok (a : A)
| Err (e : exn).
Arguments Ok {A} a.
Arguments Err {A} e.

(** [bool(v)] *)
Definition truthy (v : json) : bool :=
  match v with
  | JNull => false
  | JBool b => b
  | JInt z => negb (z =? 0)
  | JStr s => negb (String.eqb s "")
  | JArr l => match l with [] => false | _ => true end
  | JObj o => match o with [] => false | _ => true end
  end.

(** Lookup in a dict with string keys ([json.loads] objects, envelopes). *)
Fixpoint obj_get (o : list (string * json)) (k : string) : option json :=
  match o with
  | [] => None
  | (k', v) :: r => if String.eqb k' k then Some v else obj_get r k
  end.

(** [o.get(k)] on a dict: [None] for a missing key. *)
Definition get_or_none (o : list (string * json)) (k : string) : json :=
  match obj_get o k with
  | Some x => x
  | None => JNull
  end.

(** [v.get(k)]: [AttributeError] when [v] is not a dict (lists, strings,
    numbers, booleans and [None] have no [get]). *)
Definition py_get (v : json) (k : string) : res json :=
  match v with
  | JObj o => Ok (get_or_none o k)
  | _ => Err AttributeError
  end.

(** Hashable values: what can sit in a tuple used as a dict key or be
    tested for membership in a set. *)
Inductive atom : Type :=
| ANone
| ABool (b : bool)
| AInt (z : Z)
| AStr (s : string).

(** [hash(v)]: lists and dicts are unhashable. *)
Definition py_hash (v : json) : res atom :=
  match v with
  | JNull => Ok ANone
  | JBool b => Ok (ABool b)
  | JInt z => Ok (AInt z)
  | JStr s => Ok (AStr s)
  | JArr _ | JObj _ => Err TypeError
  end.


Definition atom_num (a : atom) : option Z :=
  match a with
  | ABool b => Some (if b then 1 else 0)
  | AInt z => Some z
  | _ => None
  end.

(** [a == b] on hashable values: booleans compare as the integers 0 and 1. *)
Definition py_eqb (a b : atom) : bool :=
  match atom_num a, atom_num b with
  | Some x, Some y => x =? y
  | None, None =>
      match a, b with
      | ANone, ANone => true
      | AStr s, AStr t => String.eqb s t
      | _, _ => false
      end
  | _, _ => false
  end.

(** [str(a)], as an f-string formats it. *)
Definition py_str (a : atom) : string :=
  match a with
  | ANone => "None"
  | ABool true => "True"
  | ABool false => "False"
  | AInt z => NilZero.string_of_int (Z.to_int z)
  | AStr s => s
  end.

(** [x in {"pong", "subscribe", "error"}]: hashes [x] first. *)
Definition control_events : list string := ["pong"; "subscribe"; "error"].

Definition in_control_events (v : json) : res bool :=
  match py_hash v with
  | Err e => Err e
  | Ok (AStr s) => Ok (existsb (String.eqb s) control_events)
  | Ok _ => Ok false
  end.

(* ------------------------------------------------------------------ *)
(** ** The Buffer Store: [Dict[Tuple[str, str], List[Dict[str, Any]]]] *)

Definition key : Type := (atom * atom)%type.

Definition key_eqb (k1 k2 : key) : bool :=
  py_eqb (fst k1) (fst k2) && py_eqb (snd k1) (snd k2).

Definition buffers : Type := list (key * list json).

Fixpoint dict_get (d : buffers) (k : key) : option (list json) :=
  match d with
  | [] => None
  | (k', v) :: r => if key_eqb k' k then Some v else dict_get r k
  end.

Definition dict_mem (d : buffers) (k : key) : bool :=
  match dict_get d k with Some _ => true | None => false end.

(** [d[k] = v] *)
Fixpoint dict_set (d : buffers) (k : key) (v : list json) : buffers :=
  match d with
  | [] => [(k, v)]
  | (k', v') :: r =>
      if key_eqb k' k then (k', v) :: r else (k', v') :: dict_set r k v
  end.

(** No two stored keys are equal: the invariant of a Python dict. *)
Fixpoint dict_wfb (d : buffers) : bool :=
  match d with
  | [] => true
  | (k, _) :: r => negb (dict_mem r k) && dict_wfb r
  end.

(* ------------------------------------------------------------------ *)
(** ** Clock formatting: [time.gmtime] / [strftime] *)

Record tm : Type := mkTm {
  tm_year : Z; tm_mon : Z; tm_mday : Z;
  tm_hour : Z; tm_min : Z; tm_sec : Z
}.

(** Proleptic Gregorian date of a day count since 1970-01-01. *)
Definition civil_from_days (days : Z) : Z * Z * Z :=
  let z := days + 719468 in
  let era := z / 146097 in
  let doe := z - era * 146097 in
  let yoe := (doe - doe / 1460 + doe / 36524 - doe / 146096) / 365 in
  let doy := doe - (365 * yoe + yoe / 4 - yoe / 100) in
  let mp := (5 * doy + 2) / 153 in
  let d := doy - (153 * mp + 2) / 5 + 1 in
  let m := if mp <? 10 then mp + 3 else mp - 9 in
  let y := yoe + era * 400 + (if m <=? 2 then 1 else 0) in
  (y, m, d).

(** [time.gmtime(secs)] for whole seconds since the epoch. *)
Definition gmtime (secs : Z) : tm :=
  let '(y, m, d) := civil_from_days (secs / 86400) in
  let r := secs mod 86400 in
  mkTm y m d (r / 3600) ((r mod 3600) / 60) (r mod 60).

Definition dec (n : Z) : string := NilZero.string_of_int (Z.to_int n).

Definition dec2 (n : Z) : string :=
  if n <? 10 then "0" ++ dec n else dec n.

(** ["%Y%m%dT%H%M%S"] *)
Definition strftime_compact (t : tm) : string :=
  dec (tm_year t) ++ dec2 (tm_mon t) ++ dec2 (tm_mday t) ++ "T" ++
  dec2 (tm_hour t) ++ dec2 (tm_min t) ++ dec2 (tm_sec t).

(** ["%Y-%m-%dT%H:%M:%SZ"] *)
Definition strftime_iso (t : tm) : string :=
  dec (tm_year t) ++ "-" ++ dec2 (tm_mon t) ++ "-" ++ dec2 (tm_mday t) ++ "T" ++
  dec2 (tm_hour t) ++ ":" ++ dec2 (tm_min t) ++ ":" ++ dec2 (tm_sec t) ++ "Z".

(* ------------------------------------------------------------------ *)
(** ** Configuration and subscriptions *)

Record Subscription : Type := mkSubscription {
  channel : string;
  inst_id : string
}.

Definition to_arg (sub : Subscription) : json :=
  JObj [("channel", JStr (channel sub)); ("instId", JStr (inst_id sub))].

Record WriterConfig : Type := mkWriterConfig {
  output_dir : string;
  file_rotate_seconds : Z
}.

Record ClientConfig : Type := mkClientConfig {
  url : string;
  ping_interval_seconds : Z;
  reconnect_base_delay_seconds : Q;
  reconnect_max_delay_seconds : Q
}.

Definition OKX_PUBLIC_WS_URL : string := "wss://ws.okx.com:8443/ws/v5/public".

(** [ClientConfig()] with the dataclass defaults. *)
Definition default_client_config : ClientConfig :=
  mkClientConfig OKX_PUBLIC_WS_URL 15 1 30.

(* ------------------------------------------------------------------ *)
(** ** The environment *)

(** What a file holds after [open(path, "w")] and [json.dump]: the complete
    document, or a truncated text when the dump was interrupted. *)
Inductive content : Type :=
| Doc (j : json)
| Partial.

Inductive fault_kind : Type :=
| NoFault
| OpenFails     (* [open] raises: the file is not touched *)
| DumpFails.    (* [open] succeeds, [json.dump] raises *)

Record world : Type := mkWorld {
  fs : list (string * content);   (* file writes, oldest first *)
  fault : string -> fault_kind;   (* what goes wrong when writing a path *)
  tracebacks : list exn;          (* [traceback.print_exc()], oldest first *)
  sleeps : list Q;                (* [asyncio.sleep(delay)] of the reconnect loop *)
  sent : list json;               (* payloads handed to [ws.send] *)
  flushed_at : list Z             (* [now_ms] of each [flush_buffers] call of the poll loop *)
}.

Definition add_file (p : string) (c : content) (w : world) : world :=
  mkWorld (fs w ++ [(p, c)]) (fault w) (tracebacks w) (sleeps w) (sent w) (flushed_at w).

Definition print_exc (e : exn) (w : world) : world :=
  mkWorld (fs w) (fault w) (tracebacks w ++ [e]) (sleeps w) (sent w) (flushed_at w).

Definition add_sleep (d : Q) (w : world) : world :=
  mkWorld (fs w) (fault w) (tracebacks w) (sleeps w ++ [d]) (sent w) (flushed_at w).

Definition add_sent (j : json) (w : world) : world :=
  mkWorld (fs w) (fault w) (tracebacks w) (sleeps w) (sent w ++ [j]) (flushed_at w).

Definition add_flush (t : Z) (w : world) : world :=
  mkWorld (fs w) (fault w) (tracebacks w) (sleeps w) (sent w) (flushed_at w ++ [t]).

(** The file at [p]: the latest write to it. *)
Fixpoint read_file (l : list (string * content)) (p : string) : option content :=
  match l with
  | [] => None
  | (p', c) :: r =>
      match read_file r p with
      | Some c' => Some c'
      | None => if String.eqb p' p then Some c else None
      end
  end.

(* ------------------------------------------------------------------ *)
(** ** [RollingJsonWriter] *)

(** [os.path.join(d, base)] on POSIX. *)
Definition path_join (d base : string) : string :=
  if String.prefix "/" base then base
  else if String.eqb d "" then base
  else if String.eqb (String.substring (String.length d - 1) 1 d) "/"
       then (d ++ base)%string
  else (d ++ "/" ++ base)%string.

Definition _build_filename (config : WriterConfig)
    (inst_id channel : atom) (epoch_ms : Z) : string :=
  let ts := strftime_compact (gmtime (epoch_ms / 1000)) in
  let base := (py_str inst_id ++ "_" ++ py_str channel ++ "_" ++ ts ++ ".json")%string in
  path_join (output_dir config) base.

(** [with open(path, "w") as f: json.dump(messages, f, ...)] *)
Definition write_json (path : string) (messages : list json) (w : world)
  : res unit * world :=
  match fault w path with
  | NoFault => (Ok tt, add_file path (Doc (JArr messages)) w)
  | OpenFails => (Err OSError, w)
  | DumpFails => (Err OSError, add_file path Partial w)
  end.

(** The body of the [for] loop of [flush_buffers] for one snapshot item:
    [try] the write, [except] prints the traceback, [finally] rebinds the
    key to a fresh empty list. *)
Definition flush_item (config : WriterConfig) (now_ms : Z)
    (item : key * list json) (bw : buffers * world) : buffers * world :=
  let '((inst_id, channel), messages) := item in
  let '(b, w) := bw in
  match messages with
  | [] => (b, w)                                          (* continue *)
  | _ :: _ =>
      let path := _build_filename config inst_id channel now_ms in
      let w' := match write_json path messages w with
                | (Ok _, w1) => w1
                | (Err e, w1) => print_exc e w1
                end in
      (dict_set b (inst_id, channel) [], w')
  end.

Fixpoint flush_items (config : WriterConfig) (now_ms : Z)
    (items : list (key * list json)) (bw : buffers * world) : buffers * world :=
  match items with
  | [] => bw
  | item :: rest => flush_items config now_ms rest (flush_item config now_ms item bw)
  end.

(** [flush_buffers]: iterates over the snapshot [list(buffers.items())]. *)
Definition flush_buffers (config : WriterConfig) (b : buffers) (now_ms : Z)
    (w : world) : buffers * world :=
  flush_items config now_ms b (b, w).

(* ------------------------------------------------------------------ *)
(** ** [OkxPublicWSClient] *)

Record client : Type := mkClient {
  client_config : ClientConfig;
  writer : WriterConfig;          (* the [RollingJsonWriter], through its config *)
  _ws : bool;                     (* [self._ws is not None] *)
  _subscriptions : list Subscription;
  _buffers : buffers;
  _last_flush_ms : Z;
  _stop : bool
}.

(** [OkxPublicWSClient(client_config, writer)] *)
Definition new_client (cc : ClientConfig) (wc : WriterConfig) : client :=
  mkClient cc wc false [] [] 0 false.

Definition set_ws (v : bool) (c : client) : client :=
  mkClient (client_config c) (writer c) v (_subscriptions c) (_buffers c)
           (_last_flush_ms c) (_stop c).

Definition set_subs (v : list Subscription) (c : client) : client :=
  mkClient (client_config c) (writer c) (_ws c) v (_buffers c)
           (_last_flush_ms c) (_stop c).

Definition set_buffers (v : buffers) (c : client) : client :=
  mkClient (client_config c) (writer c) (_ws c) (_subscriptions c) v
           (_last_flush_ms c) (_stop c).

Definition set_last_flush_ms (v : Z) (c : client) : client :=
  mkClient (client_config c) (writer c) (_ws c) (_subscriptions c) (_buffers c)
           v (_stop c).

Definition set_stop (v : bool) (c : client) : client :=
  mkClient (client_config c) (writer c) (_ws c) (_subscriptions c) (_buffers c)
           (_last_flush_ms c) v.

(** State and exceptions: a computation leaves a state behind also when it
    raises. *)
Definition state : Type := (client * world)%type.

Definition M (A : Type) : Type := state -> res A * state.

Definition ret {A : Type} (a : A) : M A := fun s => (Ok a, s).

Definition raise {A : Type} (e : exn) : M A := fun s => (Err e, s).

Definition bind {A B : Type} (m : M A) (f : A -> M B) : M B :=
  fun s => match m s with
           | (Ok a, s') => f a s'
           | (Err e, s') => (Err e, s')
           end.

Definition lift {A : Type} (r : res A) : M A := fun s => (r, s).

Definition gets {A : Type} (f : client -> A) : M A := fun s => (Ok (f (fst s)), s).

Definition modify (f : client -> client) : M unit :=
  fun s => (Ok tt, (f (fst s), snd s)).

Definition effect (f : world -> world) : M unit :=
  fun s => (Ok tt, (fst s, f (snd s))).

Declare Scope py_scope.
Delimit Scope py_scope with py.
Notation "x <- m ;; k" := (bind m (fun x => k))
  (at level 100, m at next level, right associativity) : py_scope.
Notation "m ;; k" := (bind m (fun _ => k))
  (at level 100, right associativity) : py_scope.

(** [set_subscriptions] *)
Fixpoint ensure_entries (subs : list Subscription) (b : buffers) : buffers :=
  match subs with
  | [] => b
  | sub :: rest =>
      let key := (AStr (inst_id sub), AStr (channel sub)) in
      ensure_entries rest (if dict_mem b key then b else dict_set b key [])
  end.

Definition set_subscriptions (subscriptions : list Subscription) (c : client) : client :=
  set_buffers (ensure_entries subscriptions (_buffers c)) (set_subs subscriptions c).

(** [_send]: nothing without a transport; [ws.send] raises when the
    transport is broken ([healthy = false]). *)
Definition _send (healthy : bool) (payload : json) : M unit :=
  (ws <- gets _ws ;;
   if negb ws then ret tt
   else if healthy then effect (add_sent payload)
   else raise ConnectionError)%py.

Definition _subscribe_all (healthy : bool) : M unit :=
  (subs <- gets _subscriptions ;;
   match subs with
   | [] => ret tt
   | _ :: _ =>
       let args := map to_arg subs in
       _send healthy (JObj [("op", JStr "subscribe"); ("args", JArr args)])
   end)%py.

(** One iteration of the [while] body of [_flush_loop], after the sleep,
    with [now_ms] the clock reading.  Nothing in it raises in this model,
    so the [except Exception] of the loop is not entered. *)
Definition flush_tick (rotate_ms now_ms : Z) (s : state) : state :=
  let '(c, w) := s in
  let c1 := if _last_flush_ms c =? 0 then set_last_flush_ms now_ms c else c in
  if now_ms - _last_flush_ms c1 >=? rotate_ms then
    let '(b, w') := flush_buffers (writer c1) (_buffers c1) now_ms (add_flush now_ms w) in
    (set_last_flush_ms now_ms (set_buffers b c1), w')
  else (c1, w).

(** [_flush_loop]: one clock reading per iteration; the task is cancelled
    when the readings run out. *)
Fixpoint flush_ticks (rotate_ms : Z) (clock : list Z) (s : state) : state :=
  match clock with
  | [] => s
  | now_ms :: rest =>
      if _stop (fst s) then s
      else flush_ticks rotate_ms rest (flush_tick rotate_ms now_ms s)
  end.

Definition _flush_loop (rotate_seconds : Z) (clock : list Z) (s : state) : state :=
  let rotate_ms := rotate_seconds * 1000 in
  flush_ticks rotate_ms clock s.

(** What the network does during one connection attempt. *)
Record attempt : Type := mkAttempt {
  connect_ok : bool;              (* [websockets.connect] opens the transport *)
  send_ok : bool;                 (* the subscribe request can be sent *)
  inbound : list (string * Z);    (* frames yielded by [async for], each with
                                     the UTC clock (epoch seconds) when handled *)
  closed_ok : bool                (* the iteration ends on a clean close, or
                                     raises on an abnormal one *)
}.

Section Client.

(** [json.loads]: [None] when it raises. *)
Variable json_loads : string -> option json.

Definition envelope (inst_id channel data action : json) (ts : string)
  : list (string * json) :=
  [("instId", inst_id); ("timestamp", JStr ts); ("source", JStr "WS");
   ("channel", channel); ("data", data)]
  ++ match action with
     | JNull => []
     | _ => [("action", action)]
     end.

(** [_handle_message]; [now_s] is the clock read by [datetime.now]. *)
Definition _handle_message (raw : string) (now_s : Z) : M unit :=
  match json_loads raw with
  | None => ret tt
  | Some msg =>
     (ctl <- lift (match msg with
                   | JObj _ => match py_get msg "event" with
                               | Ok ev => in_control_events ev
                               | Err e => Err e
                               end
                   | _ => Ok false
                   end) ;;
      if ctl : bool then ret tt else
      arg <- lift (py_get msg "arg") ;;
      data <- lift (py_get msg "data") ;;
      action <- lift (py_get msg "action") ;;
      if negb (truthy arg) || negb (truthy data) then ret tt else
      channel <- lift (py_get arg "channel") ;;
      inst_id <- lift (py_get arg "instId") ;;
      ki <- lift (py_hash inst_id) ;;
      kc <- lift (py_hash channel) ;;
      let key := (ki, kc) in
      b <- gets _buffers ;;
      (if dict_mem b key then ret tt else modify (set_buffers (dict_set b key []))) ;;
      let ts := strftime_iso (gmtime now_s) in
      let payload := envelope inst_id channel data action ts in
      b <- gets _buffers ;;
      match dict_get b key with
      | Some l => modify (set_buffers (dict_set b key (l ++ [JObj payload])))
      | None => raise KeyError
      end)%py
  end.

(** The [async for message in ws] loop. *)
Fixpoint receive (frames : list (string * Z)) : M unit :=
  match frames with
  | [] => ret tt
  | (raw, now_s) :: rest => (_handle_message raw now_s ;; receive rest)%py
  end.

(** [_connect_once] up to the end of the receive loop, without the
    keepalive task and the [finally] clause that cancels it.  This is the
    whole function for an attempt that ends before the task is created
    (failed assertion, refused connection, failed subscribe request);
    [_connect_once_tasks] below is the whole function for every attempt. *)
Definition _connect_once (a : attempt) : M unit :=
  (subs <- gets _subscriptions ;;
   match subs with [] => raise AssertionError | _ :: _ => ret tt end ;;
   (if connect_ok a then ret tt else raise ConnectionError) ;;
   modify (set_ws true) ;;
   _subscribe_all (send_ok a) ;;
   receive (inbound a) ;;
   if closed_ok a then ret tt else raise ConnectionError)%py.

(** [min(a, b)] *)
Definition py_min (a b : Q) : Q := if Qle_bool a b then a else b.

(** The [while not self._stop] loop of [run_forever] over [_connect_once];
    the task is cancelled when the attempts run out.  [reconnect_loop_tasks]
    below is the loop over [_connect_once_tasks]. *)
Fixpoint reconnect_loop (script : list attempt) (delay : Q) : M unit :=
  match script with
  | [] => ret tt
  | a :: rest =>
      fun s =>
        if _stop (fst s) then (Ok tt, s)
        else
          match _connect_once a s with
          | (Ok _, s1) =>
              reconnect_loop rest
                (reconnect_base_delay_seconds (client_config (fst s1))) s1
          | (Err e, s1) =>
              (effect (print_exc e) ;;
               effect (add_sleep delay) ;;
               cc <- gets client_config ;;
               reconnect_loop rest
                 (py_min (delay * 2) (reconnect_max_delay_seconds cc)))%py s1
          end
  end.

(** [run_forever]: [rotate_seconds] goes to the flush task, which is
    modelled by [_flush_loop]; the [finally] sets [_stop]. *)
Definition run_forever (rotate_seconds : Z) (script : list attempt) : M unit :=
  fun s0 =>
    let s := (set_stop false (fst s0), snd s0) in
    let delay := reconnect_base_delay_seconds (client_config (fst s)) in
    let '(r, s') := reconnect_loop script delay s in
    (r, (set_stop true (fst s'), snd s')).

End Client.

(* ------------------------------------------------------------------ *)
(** ** A decoder for concrete frames

    [JsonLite.loads] reads the JSON texts made of [null], [true], [false],
    integers, strings without escapes, arrays and objects, and rejects
    everything else.  On that fragment it returns what [json.loads]
    returns (for a repeated key of an object the last value, at the place
    of the first).  The general results below hold for every decoder; this
    one instantiates them on concrete frames. *)

Module JsonLite.

Definition dquote : ascii := ascii_of_nat 34.
Definition backslash : ascii := ascii_of_nat 92.

Definition is_ws (c : ascii) : bool :=
  let n := nat_of_ascii c in
  ((n =? 32) || (n =? 9) || (n =? 10) || (n =? 13))%nat.

Fixpoint skip_ws (s : string) : string :=
  match s with
  | String c r => if is_ws c then skip_ws r else s
  | EmptyString => s
  end.

(** [strip p s]: the rest of [s] after the prefix [p]. *)
Fixpoint strip (p s : string) : option string :=
  match p, s with
  | EmptyString, _ => Some s
  | String a p', String b s' => if Ascii.eqb a b then strip p' s' else None
  | String _ _, EmptyString => None
  end.

Fixpoint parse_chars (s : string) : option (string * string) :=
  match s with
  | EmptyString => None
  | String c r =>
      if Ascii.eqb c dquote then Some (EmptyString, r)
      else if Ascii.eqb c backslash then None
      else if (nat_of_ascii c <? 32)%nat then None
      else match parse_chars r with
           | Some (t, r') => Some (String c t, r')
           | None => None
           end
  end.

Definition digit_val (c : ascii) : option Z :=
  let n := nat_of_ascii c in
  if ((48 <=? n) && (n <=? 57))%nat then Some (Z.of_nat (n - 48)) else None.

Fixpoint parse_digits (acc : Z) (s : string) : Z * string :=
  match s with
  | String c r =>
      match digit_val c with
      | Some d => parse_digits (acc * 10 + d) r
      | None => (acc, s)
      end
  | EmptyString => (acc, s)
  end.

Definition starts_fraction (s : string) : bool :=
  match s with
  | String c _ => Ascii.eqb c "." || Ascii.eqb c "e" || Ascii.eqb c "E"
  | EmptyString => false
  end.

(** An integer literal: no leading zero, no fraction, no exponent. *)
Definition parse_nat (s : string) : option (Z * string) :=
  match s with
  | String c r =>
      match digit_val c with
      | Some 0 =>
          match r with
          | String c' _ =>
              match digit_val c' with
              | Some _ => None
              | None => if starts_fraction r then None else Some (0, r)
              end
          | EmptyString => Some (0, r)
          end
      | Some d =>
          let '(n, r') := parse_digits d r in
          if starts_fraction r' then None else Some (n, r')
      | None => None
      end
  | EmptyString => None
  end.

Fixpoint obj_set (o : list (string * json)) (k : string) (v : json)
  : list (string * json) :=
  match o with
  | [] => [(k, v)]
  | (k', v') :: r =>
      if String.eqb k' k then (k', v) :: r else (k', v') :: obj_set r k v
  end.

Fixpoint parse_value (fuel : nat) (s : string) {struct fuel}
  : option (json * string) :=
  match fuel with
  | O => None
  | S f =>
      let s := skip_ws s in
      match strip "null" s, strip "true" s, strip "false" s with
      | Some r, _, _ => Some (JNull, r)
      | _, Some r, _ => Some (JBool true, r)
      | _, _, Some r => Some (JBool false, r)
      | None, None, None =>
          match s with
          | EmptyString => None
          | String c r =>
              if Ascii.eqb c dquote then
                match parse_chars r with
                | Some (t, r') => Some (JStr t, r')
                | None => None
                end
              else if Ascii.eqb c "[" then
                match skip_ws r with
                | String "]" r' => Some (JArr [], r')
                | _ => match parse_elems f r with
                       | Some (l, r') => Some (JArr l, r')
                       | None => None
                       end
                end
              else if Ascii.eqb c "{" then
                match skip_ws r with
                | String "}" r' => Some (JObj [], r')
                | _ => match parse_members f [] r with
                       | Some (o, r') => Some (JObj o, r')
                       | None => None
                       end
                end
              else if Ascii.eqb c "-" then
                match parse_nat r with
                | Some (n, r') => Some (JInt (- n), r')
                | None => None
                end
              else
                match parse_nat s with
                | Some (n, r') => Some (JInt n, r')
                | None => None
                end
          end
      end
  end

with parse_elems (fuel : nat) (s : string) {struct fuel}
  : option (list json * string) :=
  match fuel with
  | O => None
  | S f =>
      match parse_value f s with
      | Some (v, r) =>
          match skip_ws r with
          | String "]" r' => Some ([v], r')
          | String "," r' =>
              match parse_elems f r' with
              | Some (l, r'') => Some (v :: l, r'')
              | None => None
              end
          | _ => None
          end
      | None => None
      end
  end

with parse_members (fuel : nat) (acc : list (string * json)) (s : string)
  {struct fuel} : option (list (string * json) * string) :=
  match fuel with
  | O => None
  | S f =>
      match skip_ws s with
      | String c r =>
          if Ascii.eqb c dquote then
            match parse_chars r with
            | Some (k, r1) =>
                match skip_ws r1 with
                | String ":" r2 =>
                    match parse_value f r2 with
                    | Some (v, r3) =>
                        let acc' := obj_set acc k v in
                        match skip_ws r3 with
                        | String "}" r4 => Some (acc', r4)
                        | String "," r4 => parse_members f acc' r4
                        | _ => None
                        end
                    | None => None
                    end
                | _ => None
                end
            | None => None
            end
          else None
      | EmptyString => None
      end
  end.

Definition loads (raw : string) : option json :=
  match parse_value (2 * String.length raw + 2) raw with
  | Some (v, r) =>
      match skip_ws r with
      | EmptyString => Some v
      | String _ _ => None
      end
  | None => None
  end.

(** Concrete frames are written with apostrophes where JSON has
    quotation marks: [sq "{'op':'ping'}"] is the text of the object with
    the one member [op]. *)
Fixpoint sq (s : string) : string :=
  match s with
  | EmptyString => EmptyString
  | String c r => String (if Ascii.eqb c "'" then dquote else c) (sq r)
  end.

End JsonLite.

(* ------------------------------------------------------------------ *)
(** ** Specification-side definitions *)

(** The sequence buffered under [k]; empty when the key is absent. *)
Definition entry (b : buffers) (k : key) : list json :=
  match dict_get b k with
  | Some l => l
  | None => []
  end.

(** Every entry rebound to the empty list. *)
Definition clear_all (b : buffers) : buffers :=
  map (fun p => (fst p, @nil json)) b.

(** What one snapshot item puts on disk, and what it prints. *)
Definition item_files (config : WriterConfig) (now_ms : Z)
    (flt : string -> fault_kind) (item : key * list json)
  : list (string * content) :=
  match snd item with
  | [] => []
  | _ :: _ =>
      let path := _build_filename config (fst (fst item)) (snd (fst item)) now_ms in
      match flt path with
      | NoFault => [(path, Doc (JArr (snd item)))]
      | OpenFails => []
      | DumpFails => [(path, Partial)]
      end
  end.

Definition item_errors (config : WriterConfig) (now_ms : Z)
    (flt : string -> fault_kind) (item : key * list json) : list exn :=
  match snd item with
  | [] => []
  | _ :: _ =>
      let path := _build_filename config (fst (fst item)) (snd (fst item)) now_ms in
      match flt path with
      | NoFault => []
      | OpenFails | DumpFails => [OSError]
      end
  end.

Definition world_after (w : world) (files : list (string * content))
    (errs : list exn) : world :=
  mkWorld (fs w ++ files) (fault w) (tracebacks w ++ errs) (sleeps w)
          (sent w) (flushed_at w).

(** No entry of [d] has a key equal to [k]. *)
Definition fresh_in (k : key) (d : buffers) : Prop :=
  forall p, In p d -> key_eqb (fst p) k = false.

(** The delays of [n] failures in a row, from the current delay [d]. *)
Fixpoint backoff_seq (max_delay d : Q) (n : nat) : list Q :=
  match n with
  | O => []
  | S n' => d :: backoff_seq max_delay (py_min (d * 2) max_delay) n'
  end.

(** What the parts of the state that a task does not own look like after
    it ran. *)
Definition client_frame (c c' : client) : Prop :=
  client_config c' = client_config c /\
  writer c' = writer c /\
  _subscriptions c' = _subscriptions c /\
  _last_flush_ms c' = _last_flush_ms c /\
  _stop c' = _stop c.

Definition world_frame (w w' : world) : Prop :=
  fs w' = fs w /\
  fault w' = fault w /\
  tracebacks w' = tracebacks w /\
  sleeps w' = sleeps w /\
  flushed_at w' = flushed_at w.

Definition preserves {A : Type} (m : M A) : Prop :=
  forall s r s', m s = (r, s') ->
    client_frame (fst s) (fst s') /\ world_frame (snd s) (snd s').

(** The canonical representative of an equality class of [py_eqb]. *)
Definition canon (a : atom) : atom :=
  match a with
  | ABool b => AInt (if b then 1 else 0)
  | _ => a
  end.

Definition canon_key (k : key) : key := (canon (fst k), canon (snd k)).

(** The three ways a frame can be handled. *)
Inductive handled (s : state) : res unit * state -> Prop :=
| handled_dropped : handled s (Ok tt, s)
| handled_raised (e : exn) : handled s (Err e, s)
| handled_appended (k : key) (inst_id channel data action : json) (ts : string) :
    handled s
      (Ok tt,
       (set_buffers
          (dict_set (_buffers (fst s)) k
             (entry (_buffers (fst s)) k
              ++ [JObj (envelope inst_id channel data action ts)]))
          (fst s),
        snd s)).

(** Inputs for the concrete runs. *)
Module Samples.

Import JsonLite.

Definition writer_config : WriterConfig := mkWriterConfig "./okx_out/realtime" 60.

(** A client before [set_subscriptions]. *)
Definition unconfigured : client := new_client default_client_config writer_config.

(** A client subscribed to the trades of BTC-USDT. *)
Definition trades_client : client :=
  set_subscriptions [mkSubscription "trades" "BTC-USDT"] unconfigured.

Definition trades_key : key := (AStr "BTC-USDT", AStr "trades").

Definition healthy_disk : world := mkWorld [] (fun _ => NoFault) [] [] [] [].

(** A disk on which no file can be opened for writing. *)
Definition read_only_disk : world := mkWorld [] (fun _ => OpenFails) [] [] [] [].

Definition trade (px : string) : string :=
  sq ("{'arg':{'channel':'trades','instId':'BTC-USDT'},'data':[{'px':'" ++ px ++ "'}]}").

Definition subscribe_ack : string :=
  sq "{'event':'subscribe','arg':{'channel':'trades','instId':'BTC-USDT'},'data':[1]}".



Definition t0 : Z := 1700000000.

(** The envelope of [trade px] handled at [t0]. *)
Definition trade_envelope (px : string) : json :=
  JObj [("instId", JStr "BTC-USDT"); ("timestamp", JStr "2023-11-14T22:13:20Z");
        ("source", JStr "WS"); ("channel", JStr "trades");
        ("data", JArr [JObj [("px", JStr px)]])].

(** Three kinds of attempts. *)
Definition refused : attempt := mkAttempt false true [] true.

Definition subscribed_then_lost : attempt :=
  mkAttempt true true [(subscribe_ack, t0); (trade "1", t0)] false.

Definition clean_close : attempt := mkAttempt true true [(trade "1", t0)] true.

(** The state after the three frames [trade "1"], [trade "2"], [trade "3"]. *)
Definition after_three_trades : state :=
  snd (receive loads [(trade "1", t0); (trade "2", t0); (trade "3", t0)]
         (trades_client, healthy_disk)).

End Samples.

(* ------------------------------------------------------------------ *)
(** ** The rest of [okx.py]

    [save_rest_data], [_ping_loop], and the connection attempt with its
    keepalive task.  The definitions above model [_connect_once] and
    [run_forever] without the keepalive task; the ones below add what the
    [finally] clause of [_connect_once] does with it. *)

(** [d.get(k, default)] *)
Definition get_default (v : json) (k : string) (d : json) : res json :=
  match v with
  | JObj o => Ok (match obj_get o k with Some x => x | None => d end)
  | _ => Err AttributeError
  end.

(** [v[0] if v else {}]: the first element of a non-empty list, the first
    character of a non-empty string; a non-empty dict has no key [0], and
    numbers and booleans cannot be indexed. *)
Definition first_or_empty (v : json) : res json :=
  if truthy v then
    match v with
    | JArr (h :: _) => Ok h
    | JStr (String c _) => Ok (JStr (String c EmptyString))
    | JObj _ => Err KeyError
    | _ => Err TypeError
    end
  else Ok (JObj []).

(** The body of [save_rest_data].  The four arguments [*_r] are what
    [fetch_candles], [fetch_trades], [fetch_orderbook] and [fetch_ticker]
    give: the parsed response, or the exception of the request.  Creating
    the output directory ([os.makedirs]) is left out. *)
Definition save_rest_data (inst_id output_dir : string) (now_s : Z)
    (candles_r trades_r orderbook_r ticker_r : res json) (w : world)
  : res unit * world :=
  let ts := strftime_iso (gmtime now_s) in
  let data_of (r : res json) : res json :=
    match r with
    | Ok v => get_default v "data" (JArr [])
    | Err e => Err e
    end in
  match data_of candles_r with
  | Err e => (Err e, w)
  | Ok candles =>
  match data_of trades_r with
  | Err e => (Err e, w)
  | Ok trades =>
  match data_of orderbook_r with
  | Err e => (Err e, w)
  | Ok orderbook =>
  match data_of ticker_r with
  | Err e => (Err e, w)
  | Ok ticker =>
  match first_or_empty orderbook with
  | Err e => (Err e, w)
  | Ok orderbook0 =>
  match first_or_empty ticker with
  | Err e => (Err e, w)
  | Ok ticker0 =>
      let payload :=
        JObj [("instId", JStr inst_id); ("timestamp", JStr ts);
              ("source", JStr "REST");
              ("data", JObj [("candles", candles); ("trades", trades);
                             ("orderbook", orderbook0); ("tickers", ticker0)])] in
      let path := path_join output_dir (inst_id ++ ".json") in
      match fault w path with
      | NoFault => (Ok tt, add_file path (Doc payload) w)
      | OpenFails => (Err OSError, w)
      | DumpFails => (Err OSError, add_file path Partial w)
      end
  end end end end end end.

(** How a background task stands when its owner cancels and awaits it. *)
Inductive task_end : Type :=
| Pending      (* suspended in its sleep: the cancellation ends it *)
| Finished.    (* its coroutine has returned already *)

Definition ping_payload : json := JObj [("op", JStr "ping")].

(** [_ping_loop]: one element of [sends] per completed sleep, telling
    whether the transport takes the ping; the owner cancels the task during
    the sleep that follows the last one. *)
Fixpoint _ping_loop (sends : list bool) (s : state) : task_end * state :=
  if _stop (fst s) || negb (_ws (fst s)) then (Finished, s)
  else
    match sends with
    | [] => (Pending, s)
    | healthy :: rest =>
        match _send healthy ping_payload s with
        | (Ok _, s1) => _ping_loop rest s1
        | (Err _, s1) => (Finished, s1)              (* except Exception: break *)
        end
    end.

(** How a coroutine ends.  [CancelledError] is not an [Exception] (Python
    3.8 and later): neither [except Exception] nor
    [contextlib.suppress(Exception)] stops it. *)
Inductive outcome : Type :=
| Returned
| Raised (e : exn)
| Cancelled.

Definition to_outcome (r : res unit) : outcome :=
  match r with
  | Ok _ => Returned
  | Err e => Raised e
  end.

(** A connection attempt with its keepalive task. *)
Record session : Type := mkSession {
  net : attempt;
  ping_sends : list bool
}.

(** [_connect_once] with the keepalive task.  The task is created after
    the subscribe request; what it sends touches only [sent], so its sends
    are recorded after the frames.  The [finally] cancels the task and
    awaits it under [suppress(Exception)]: awaiting a task that was still
    pending raises [CancelledError], which replaces whatever the receive
    loop ended with. *)
Definition _connect_once_tasks (json_loads : string -> option json)
    (x : session) (s : state) : outcome * state :=
  let a := net x in
  match _subscriptions (fst s) with
  | [] => (Raised AssertionError, s)
  | _ :: _ =>
      if negb (connect_ok a) then (Raised ConnectionError, s)
      else
        match _subscribe_all (send_ok a) (set_ws true (fst s), snd s) with
        | (Err e, s1) => (Raised e, s1)
        | (Ok _, s1) =>
            let '(r, s2) :=
              (receive json_loads (inbound a) ;;
               if closed_ok a then ret tt else raise ConnectionError)%py s1 in
            let '(p, s3) := _ping_loop (ping_sends x) s2 in
            match p with
            | Pending => (Cancelled, s3)
            | Finished => (to_outcome r, s3)
            end
        end
  end.

(** The loop of [run_forever] over [_connect_once_tasks]: [except Exception]
    handles [Raised], and lets [Cancelled] through. *)
Fixpoint reconnect_loop_tasks (json_loads : string -> option json)
    (script : list session) (delay : Q) (s : state) : outcome * state :=
  match script with
  | [] => (Cancelled, s)
  | x :: rest =>
      if _stop (fst s) then (Returned, s)
      else
        match _connect_once_tasks json_loads x s with
        | (Returned, s1) =>
            reconnect_loop_tasks json_loads rest
              (reconnect_base_delay_seconds (client_config (fst s1))) s1
        | (Raised e, s1) =>
            reconnect_loop_tasks json_loads rest
              (py_min (delay * 2)
                      (reconnect_max_delay_seconds (client_config (fst s1))))
              (fst s1, add_sleep delay (print_exc e (snd s1)))
        | (Cancelled, s1) => (Cancelled, s1)
        end
  end.

(** [run_forever] over [_connect_once_tasks]; the [finally] sets [_stop]. *)
Definition run_forever_tasks (json_loads : string -> option json)
    (rotate_seconds : Z) (script : list session) (s0 : state) : outcome * state :=
  let s := (set_stop false (fst s0), snd s0) in
  let delay := reconnect_base_delay_seconds (client_config (fst s)) in
  let '(r, s') := reconnect_loop_tasks json_loads script delay s in
  (r, (set_stop true (fst s'), snd s')).

(** *** Specification-side definitions for the properties of these *)

Definition hashable (v : json) : bool :=
  match py_hash v with
  | Ok _ => true
  | Err _ => false
  end.

(** The parsed frames on which [_handle_message] raises. *)
Definition frame_raises (msg : json) : bool :=
  match msg with
  | JObj o =>
      match in_control_events (get_or_none o "event") with
      | Err _ => true
      | Ok true => false
      | Ok false =>
          if negb (truthy (get_or_none o "arg")) || negb (truthy (get_or_none o "data"))
          then false
          else
            match get_or_none o "arg" with
            | JObj a =>
                negb (hashable (get_or_none a "instId")
                      && hashable (get_or_none a "channel"))
            | _ => true
            end
      end
  | _ => true
  end.


Definition sub_key (sub : Subscription) : key :=
  (AStr (inst_id sub), AStr (channel sub)).

(** Consecutive elements of [l], starting from [prev], are at least
    [gap] apart. *)
Fixpoint spaced (gap prev : Z) (l : list Z) : Prop :=
  match l with
  | [] => True
  | t :: r => gap <= t - prev /\ spaced gap t r
  end.

(** The files of a flush on a disk without faults. *)
Definition healthy_files (config : WriterConfig) (now_ms : Z) (b : buffers)
  : list (string * content) :=
  map (fun item => (_build_filename config (fst (fst item)) (snd (fst item)) now_ms,
                    Doc (JArr (snd item))))
      (filter (fun item => match snd item with [] => false | _ :: _ => true end) b).

(** The leading successful sends. *)
Fixpoint leading_true (l : list bool) : nat :=
  match l with
  | true :: r => S (leading_true r)
  | _ => O
  end.

(** The Buffer Store of [s'] extends that of [s]: every sequence of [s] is
    a prefix of the sequence under the same key in [s'], and no key is
    gone. *)
Definition grows (s s' : state) : Prop :=
  (forall k, exists added,
     entry (_buffers (fst s')) k = entry (_buffers (fst s)) k ++ added) /\
  (forall k, dict_mem (_buffers (fst s)) k = true ->
             dict_mem (_buffers (fst s')) k = true).


(** The subscribe request for the registry [subs]. *)
Definition subscribe_request (subs : list Subscription) : json :=
  JObj [("op", JStr "subscribe"); ("args", JArr (map to_arg subs))].

(** A response whose [data] is the list [l], or that has no [data]. *)
Definition data_list (r : res json) (l : list json) : Prop :=
  exists o, r = Ok (JObj o) /\
            (obj_get o "data" = Some (JArr l) \/ (obj_get o "data" = None /\ l = [])).

(** The attempt gets as far as creating the keepalive task: there are
    subscriptions, the transport opens and takes the subscribe request. *)
Definition established (a : attempt) (s : state) : bool :=
  match _subscriptions (fst s) with
  | [] => false
  | _ :: _ => connect_ok a && send_ok a
  end.

(** The [data] of a response that is an object, [[]] when it has none. *)
Definition response_data (r : res json) : option json :=
  match r with
  | Ok (JObj o) => Some (match obj_get o "data" with Some x => x | None => JArr [] end)
  | _ => None
  end.

(** The values of which a first element can be taken when they are not
    empty: lists and strings. *)
Definition can_take_first (v : json) : bool :=
  negb (truthy v) || match v with JArr _ | JStr _ => true | _ => false end.

(** The four responses from which [save_rest_data] can build a snapshot. *)
Definition snapshot_inputs (candles_r trades_r orderbook_r ticker_r : res json) : Prop :=
  exists c t o k,
    response_data candles_r = Some c /\
    response_data trades_r = Some t /\
    response_data orderbook_r = Some o /\
    response_data ticker_r = Some k /\
    can_take_first o = true /\
    can_take_first k = true.

(* ------------------------------------------------------------------ *)
(** ** Equality of keys *)

Lemma py_eqb_canon (a b : atom) : py_eqb a b = true <-> canon a = canon b.
Proof.
  destruct a as [|x|x|x], b as [|y|y|y]; unfold py_eqb; simpl;
    try rewrite Z.eqb_eq; try rewrite String.eqb_eq;
    try destruct x; try destruct y;
    split; intros H; try reflexivity; try discriminate; try congruence.
Qed.

Lemma key_eqb_canon (k1 k2 : key) :
  key_eqb k1 k2 = true <-> canon_key k1 = canon_key k2.
Proof.
  unfold key_eqb, canon_key.
  rewrite andb_true_iff, !py_eqb_canon.
  destruct k1, k2; simpl. split.
  - intros [-> ->]. reflexivity.
  - intros H. inversion H. auto.
Qed.

Lemma key_eqb_refl (k : key) : key_eqb k k = true.
Proof. apply key_eqb_canon. reflexivity. Qed.

Lemma key_eqb_sym (k1 k2 : key) : key_eqb k1 k2 = key_eqb k2 k1.
Proof.
  destruct (key_eqb k1 k2) eqn:E1, (key_eqb k2 k1) eqn:E2; try reflexivity.
  - apply key_eqb_canon in E1. symmetry in E1. apply key_eqb_canon in E1. congruence.
  - apply key_eqb_canon in E2. symmetry in E2. apply key_eqb_canon in E2. congruence.
Qed.

Lemma key_eqb_trans_l (k1 k2 k : key) :
  key_eqb k1 k2 = true -> key_eqb k1 k = key_eqb k2 k.
Proof.
  intros H. apply key_eqb_canon in H.
  destruct (key_eqb k1 k) eqn:E1, (key_eqb k2 k) eqn:E2; try reflexivity.
  - apply key_eqb_canon in E1. rewrite H in E1. apply key_eqb_canon in E1. congruence.
  - apply key_eqb_canon in E2. rewrite <- H in E2. apply key_eqb_canon in E2. congruence.
Qed.

(* ------------------------------------------------------------------ *)
(** ** The dict operations *)

Lemma dict_get_set (b : buffers) (k0 k : key) (v : list json) :
  dict_get (dict_set b k0 v) k =
  if key_eqb k0 k then Some v else dict_get b k.
Proof.
  induction b as [|[k' v'] r IH]; simpl.
  - reflexivity.
  - destruct (key_eqb k' k0) eqn:E; simpl.
    + rewrite (key_eqb_trans_l _ _ k E).
      destruct (key_eqb k0 k); reflexivity.
    + rewrite IH. destruct (key_eqb k' k) eqn:E'; [|reflexivity].
      destruct (key_eqb k0 k) eqn:E''; [|reflexivity].
      rewrite key_eqb_sym in E''. rewrite (key_eqb_trans_l _ _ k0 E') in E.
      congruence.
Qed.

Lemma dict_set_set (b : buffers) (k : key) (v1 v2 : list json) :
  dict_set (dict_set b k v1) k v2 = dict_set b k v2.
Proof.
  induction b as [|[k' v'] r IH]; simpl.
  - rewrite key_eqb_refl. reflexivity.
  - destruct (key_eqb k' k) eqn:E; simpl; rewrite E; [reflexivity|].
    now rewrite IH.
Qed.

Lemma dict_mem_keys (d1 d2 : buffers) (k : key) :
  map fst d1 = map fst d2 -> dict_mem d1 k = dict_mem d2 k.
Proof.
  unfold dict_mem. revert d2.
  induction d1 as [|[k1 v1] r1 IH]; intros [|[k2 v2] r2] H; simpl in *;
    try discriminate; [reflexivity|].
  inversion H; subst. destruct (key_eqb k2 k); [reflexivity|]. now apply IH.
Qed.

Lemma dict_wfb_keys (d1 d2 : buffers) :
  map fst d1 = map fst d2 -> dict_wfb d1 = dict_wfb d2.
Proof.
  revert d2.
  induction d1 as [|[k1 v1] r1 IH]; intros [|[k2 v2] r2] H; simpl in *;
    try discriminate; [reflexivity|].
  inversion H; subst. rewrite (dict_mem_keys r1 r2 k2), (IH r2); auto.
Qed.

Lemma dict_mem_false_fresh (d : buffers) (k : key) :
  dict_mem d k = false -> fresh_in k d.
Proof.
  unfold dict_mem, fresh_in. induction d as [|[k' v'] r IH]; simpl.
  - intros _ p [].
  - destruct (key_eqb k' k) eqn:E; [discriminate|].
    intros H p [<-|Hin]; [exact E|]. now apply IH.
Qed.

Lemma fresh_dict_mem_false (d : buffers) (k : key) :
  fresh_in k d -> dict_mem d k = false.
Proof.
  unfold dict_mem, fresh_in. induction d as [|[k' v'] r IH]; simpl; intros H.
  - reflexivity.
  - pose proof (H (k', v') (or_introl eq_refl)) as E. simpl in E. rewrite E.
    apply IH. intros p Hp. apply H. now right.
Qed.

Lemma dict_wfb_app (d1 d2 : buffers) :
  dict_wfb (d1 ++ d2) = true ->
  dict_wfb d2 = true /\ forall p, In p d2 -> fresh_in (fst p) d1.
Proof.
  induction d1 as [|[k v] r IH]; simpl.
  - intros H. split; [exact H|]. intros p _ q [].
  - rewrite andb_true_iff, negb_true_iff. intros [Hm Hw].
    destruct (IH Hw) as [H2 Hf]. split; [exact H2|].
    intros p Hp q [<-|Hq]; [|now apply (Hf p)].
    simpl. rewrite key_eqb_sym.
    apply (dict_mem_false_fresh _ _ Hm). apply in_or_app. now right.
Qed.

Lemma dict_set_fresh_app (d1 d2 : buffers) (k : key) (v : list json) :
  fresh_in k d1 -> dict_set (d1 ++ d2) k v = d1 ++ dict_set d2 k v.
Proof.
  induction d1 as [|[k' v'] r IH]; simpl; intros H.
  - reflexivity.
  - pose proof (H (k', v') (or_introl eq_refl)) as E. simpl in E. rewrite E.
    f_equal. apply IH. intros p Hp. apply H. now right.
Qed.

Lemma dict_get_fresh_app (d1 d2 : buffers) (k : key) :
  fresh_in k d1 -> dict_get (d1 ++ d2) k = dict_get d2 k.
Proof.
  induction d1 as [|[k' v'] r IH]; simpl; intros H.
  - reflexivity.
  - pose proof (H (k', v') (or_introl eq_refl)) as E. simpl in E. rewrite E.
    apply IH. intros p Hp. apply H. now right.
Qed.

(** Assignment keeps the dict invariant. *)
Lemma dict_set_wf (b : buffers) (k : key) (v : list json) :
  dict_wfb b = true -> dict_wfb (dict_set b k v) = true.
Proof.
  induction b as [|[k' v'] r IH]; simpl.
  - reflexivity.
  - rewrite andb_true_iff, negb_true_iff. intros [Hm Hw].
    destruct (key_eqb k' k) eqn:E; simpl; rewrite andb_true_iff, negb_true_iff.
    + auto.
    + split; [|auto]. unfold dict_mem in *. rewrite dict_get_set.
      rewrite key_eqb_sym, E. exact Hm.
Qed.


(* ------------------------------------------------------------------ *)
(** ** [flush_buffers] *)

Lemma world_after_nil (w : world) : world_after w [] [] = w.
Proof. destruct w. unfold world_after. simpl. now rewrite !app_nil_r. Qed.

Lemma world_after_after (w : world) f1 e1 f2 e2 :
  world_after (world_after w f1 e1) f2 e2 = world_after w (f1 ++ f2) (e1 ++ e2).
Proof. unfold world_after. simpl. now rewrite !app_assoc. Qed.

Lemma flush_item_spec (config : WriterConfig) (now_ms : Z)
    (item : key * list json) (b : buffers) (w : world) :
  flush_item config now_ms item (b, w) =
  (match snd item with [] => b | _ :: _ => dict_set b (fst item) [] end,
   world_after w (item_files config now_ms (fault w) item)
                 (item_errors config now_ms (fault w) item)).
Proof.
  destruct item as [[i c] [|m ms]]; unfold item_files, item_errors; simpl.
  - now rewrite world_after_nil.
  - unfold write_json. destruct (fault w _); simpl; f_equal;
      destruct w; unfold world_after, add_file, print_exc; simpl;
      now rewrite ?app_nil_r.
Qed.

(** The loop of [flush_buffers], started on a dict whose first entries
    [done] have been reset already. *)
Lemma flush_items_spec (config : WriterConfig) (now_ms : Z) :
  forall (items done : buffers) (w : world),
    dict_wfb (done ++ items) = true ->
    flush_items config now_ms items (done ++ items, w) =
    (done ++ clear_all items,
     world_after w (flat_map (item_files config now_ms (fault w)) items)
                   (flat_map (item_errors config now_ms (fault w)) items)).
Proof.
  induction items as [|[k m] rest IH]; intros done w Hwf.
  - simpl. now rewrite world_after_nil.
  - assert (Hwf' : dict_wfb ((done ++ [(k, [])]) ++ rest) = true).
    { rewrite <- Hwf. apply dict_wfb_keys.
      rewrite <- app_assoc, !map_app. reflexivity. }
    assert (Hfresh : fresh_in k done).
    { destruct (dict_wfb_app _ _ Hwf) as [_ Hf]. apply (Hf (k, m)). now left. }
    cbn [flush_items]. rewrite flush_item_spec. cbn [fst snd].
    specialize (IH (done ++ [(k, [])])
                   (world_after w (item_files config now_ms (fault w) (k, m))
                                  (item_errors config now_ms (fault w) (k, m)))
                   Hwf').
    rewrite world_after_after in IH. cbn [fault world_after] in IH.
    rewrite <- !app_assoc in IH. cbn [app] in IH.
    cbn [flat_map clear_all map fst].
    destruct m as [|x xs].
    + exact IH.
    + rewrite dict_set_fresh_app by exact Hfresh.
      cbn [dict_set]. rewrite key_eqb_refl. exact IH.
Qed.

(** A flush resets every entry, and writes the snapshot items in order. *)
Lemma flush_buffers_spec (config : WriterConfig) (b : buffers) (now_ms : Z)
    (w : world) :
  dict_wfb b = true ->
  flush_buffers config b now_ms w =
  (clear_all b,
   world_after w (flat_map (item_files config now_ms (fault w)) b)
                 (flat_map (item_errors config now_ms (fault w)) b)).
Proof.
  intros Hwf. unfold flush_buffers.
  apply (flush_items_spec config now_ms b [] w Hwf).
Qed.

(** The parts of the world a flush does not touch; no invariant needed. *)
Lemma flush_items_untouched (config : WriterConfig) (now_ms : Z) :
  forall (items b : buffers) (w : world),
    let w' := snd (flush_items config now_ms items (b, w)) in
    fault w' = fault w /\ sleeps w' = sleeps w /\ sent w' = sent w /\
    flushed_at w' = flushed_at w.
Proof.
  induction items as [|item rest IH]; intros b w; simpl.
  - auto.
  - rewrite flush_item_spec.
    specialize (IH (match snd item with [] => b | _ :: _ => dict_set b (fst item) [] end)
                   (world_after w (item_files config now_ms (fault w) item)
                                  (item_errors config now_ms (fault w) item))).
    simpl in IH. exact IH.
Qed.


Lemma dict_get_clear_all (b : buffers) (k : key) :
  dict_get (clear_all b) k =
  match dict_get b k with Some _ => Some [] | None => None end.
Proof.
  induction b as [|[k' v'] r IH]; simpl; [reflexivity|].
  destruct (key_eqb k' k); [reflexivity|exact IH].
Qed.

Lemma read_file_app_last (l1 l2 : list (string * content)) (p : string) (c : content) :
  (forall x, In x l2 -> fst x <> p) ->
  read_file (l1 ++ (p, c) :: l2) p = Some c.
Proof.
  intros Hl2.
  assert (H2 : read_file l2 p = None).
  { induction l2 as [|[p' c'] r IH]; simpl; [reflexivity|].
    rewrite IH by (intros x Hx; apply Hl2; now right).
    destruct (String.eqb p' p) eqn:E; [|reflexivity].
    apply String.eqb_eq in E. exfalso. apply (Hl2 (p', c')); [now left|exact E]. }
  induction l1 as [|[p' c'] r IH]; simpl.
  - now rewrite H2, String.eqb_refl.
  - now rewrite IH.
Qed.

(** What happens to the entry of [K] in a dict that satisfies the
    invariant, whatever the disk does. *)
Lemma flush_buffers_around (config : WriterConfig) (now_ms : Z) (w : world)
    (l1 l2 : buffers) (K : key) (msgs : list json) :
  dict_wfb (l1 ++ (K, msgs) :: l2) = true ->
  let r := flush_buffers config (l1 ++ (K, msgs) :: l2) now_ms w in
  fst r = clear_all (l1 ++ (K, msgs) :: l2) /\
  dict_get (fst r) K = Some [] /\
  fresh_in K (l1 ++ l2) /\
  fs (snd r) =
    fs w ++ flat_map (item_files config now_ms (fault w)) l1
         ++ item_files config now_ms (fault w) (K, msgs)
         ++ flat_map (item_files config now_ms (fault w)) l2 /\
  tracebacks (snd r) =
    tracebacks w ++ flat_map (item_errors config now_ms (fault w)) l1
                 ++ item_errors config now_ms (fault w) (K, msgs)
                 ++ flat_map (item_errors config now_ms (fault w)) l2.
Proof.
  intros Hwf r. subst r. rewrite flush_buffers_spec by exact Hwf.
  destruct (dict_wfb_app _ _ Hwf) as [Hwf2 Hf].
  assert (Hf1 : fresh_in K l1) by (apply (Hf (K, msgs)); now left).
  assert (Hf2 : fresh_in K l2).
  { simpl in Hwf2. apply andb_true_iff in Hwf2. destruct Hwf2 as [Hm _].
    apply negb_true_iff in Hm. now apply dict_mem_false_fresh. }
  cbn [fst snd world_after fs tracebacks]. repeat split.
  - rewrite dict_get_clear_all, dict_get_fresh_app by exact Hf1.
    simpl. now rewrite key_eqb_refl.
  - intros p Hp. apply in_app_or in Hp. destruct Hp; auto.
  - rewrite !flat_map_app. reflexivity.
  - rewrite !flat_map_app. reflexivity.
Qed.

(** C5. For a key [K] holding a non-empty sequence [msgs] when the flush
    starts, and whose file can be written, [flush_buffers] performs exactly
    one write for [K]: the new writes are those of the keys before [K], then
    the file of [K] holding the whole sequence in order, then those of the
    keys after [K], none of which is [K].  After the flush the entry of [K]
    is empty.  The file of [K] still reads as that sequence at the end of
    the flush unless a later key of the same flush is given the same file
    name. *)
Theorem flush_writes_sequence_once_and_empties
    (config : WriterConfig) (now_ms : Z) (w : world)
    (l1 l2 : buffers) (K : key) (msgs : list json) :
  let b := l1 ++ (K, msgs) :: l2 in
  let path := _build_filename config (fst K) (snd K) now_ms in
  let others := item_files config now_ms (fault w) in
  dict_wfb b = true ->
  msgs <> [] ->
  fault w path = NoFault ->
  let r := flush_buffers config b now_ms w in
  fs (snd r) =
    fs w ++ flat_map others l1 ++ [(path, Doc (JArr msgs))] ++ flat_map others l2 /\
  fresh_in K (l1 ++ l2) /\
  dict_get (fst r) K = Some [] /\
  ((forall x, In x (flat_map others l2) -> fst x <> path) ->
   read_file (fs (snd r)) path = Some (Doc (JArr msgs))).
Proof.
  intros b path others Hwf Hne Hok r.
  destruct (flush_buffers_around config now_ms w l1 l2 K msgs Hwf)
    as (_ & Hget & Hfresh & Hfs & _).
  fold b in Hget, Hfs. fold r in Hget, Hfs.
  assert (Hitem : item_files config now_ms (fault w) (K, msgs)
                  = [(path, Doc (JArr msgs))]).
  { unfold item_files. cbn [fst snd]. fold path. rewrite Hok.
    destruct msgs; [contradiction|reflexivity]. }
  rewrite Hitem in Hfs. repeat split; auto.
  intros Hlater. rewrite Hfs, app_assoc. cbn [app].
  now apply read_file_app_last.
Qed.

(** C1, as the code has it.  When the file of [K] cannot be written, the
    failure is printed and the other keys are written as usual, but the
    entry of [K] is reset to empty like every other entry: its envelopes are
    not on disk (at most a truncated file is) and not in memory. *)
Theorem flush_failure_discards_sequence
    (config : WriterConfig) (now_ms : Z) (w : world)
    (l1 l2 : buffers) (K : key) (msgs : list json) :
  let b := l1 ++ (K, msgs) :: l2 in
  let path := _build_filename config (fst K) (snd K) now_ms in
  let others := item_files config now_ms (fault w) in
  let errors := item_errors config now_ms (fault w) in
  dict_wfb b = true ->
  msgs <> [] ->
  fault w path <> NoFault ->
  let r := flush_buffers config b now_ms w in
  dict_get (fst r) K = Some [] /\
  fst r = clear_all b /\
  tracebacks (snd r) =
    tracebacks w ++ flat_map errors l1 ++ [OSError] ++ flat_map errors l2 /\
  fs (snd r) =
    fs w ++ flat_map others l1
         ++ match fault w path with DumpFails => [(path, Partial)] | _ => [] end
         ++ flat_map others l2.
Proof.
  intros b path others errors Hwf Hne Hbad r.
  destruct (flush_buffers_around config now_ms w l1 l2 K msgs Hwf)
    as (Hall & Hget & _ & Hfs & Htb).
  fold b in Hall, Hget, Hfs, Htb. fold r in Hall, Hget, Hfs, Htb.
  unfold item_files in Hfs. unfold item_errors in Htb.
  cbn [fst snd] in Hfs, Htb. fold path in Hfs, Htb.
  destruct msgs as [|m ms]; [contradiction|].
  repeat split; auto.
  - rewrite Htb. destruct (fault w path); [contradiction| |]; reflexivity.
  - rewrite Hfs. destruct (fault w path); [contradiction| |]; reflexivity.
Qed.

(* ------------------------------------------------------------------ *)
(** ** [_flush_loop] *)

Lemma flush_tick_quiet (rotate_ms now_ms : Z) (c : client) (w : world) :
  _last_flush_ms c <> 0 ->
  now_ms - _last_flush_ms c < rotate_ms ->
  flush_tick rotate_ms now_ms (c, w) = (c, w).
Proof.
  intros Hset Hlt. unfold flush_tick.
  destruct (Z.eqb_spec (_last_flush_ms c) 0) as [E|_]; [contradiction|].
  rewrite Z.geb_leb. destruct (Z.leb_spec rotate_ms (now_ms - _last_flush_ms c)).
  - lia.
  - reflexivity.
Qed.

Lemma flush_tick_due (rotate_ms now_ms : Z) (c : client) (w : world) :
  _last_flush_ms c <> 0 ->
  rotate_ms <= now_ms - _last_flush_ms c ->
  let r := flush_buffers (writer c) (_buffers c) now_ms (add_flush now_ms w) in
  flush_tick rotate_ms now_ms (c, w) =
  (set_last_flush_ms now_ms (set_buffers (fst r) c), snd r).
Proof.
  intros Hset Hge r. unfold flush_tick.
  destruct (Z.eqb_spec (_last_flush_ms c) 0) as [E|_]; [contradiction|].
  rewrite Z.geb_leb. destruct (Z.leb_spec rotate_ms (now_ms - _last_flush_ms c)).
  - fold r. destruct r. reflexivity.
  - lia.
Qed.





(* ------------------------------------------------------------------ *)
(** ** Frame properties of the monadic code *)

Lemma client_frame_refl (c : client) : client_frame c c.
Proof. unfold client_frame. auto. Qed.

Lemma world_frame_refl (w : world) : world_frame w w.
Proof. unfold world_frame. repeat split. Qed.

Lemma client_frame_trans (c1 c2 c3 : client) :
  client_frame c1 c2 -> client_frame c2 c3 -> client_frame c1 c3.
Proof.
  unfold client_frame. intros (A1 & A2 & A3 & A4 & A5) (B1 & B2 & B3 & B4 & B5).
  repeat split; congruence.
Qed.

Lemma world_frame_trans (w1 w2 w3 : world) :
  world_frame w1 w2 -> world_frame w2 w3 -> world_frame w1 w3.
Proof.
  unfold world_frame. intros (A1 & A2 & A3 & A4 & A5) (B1 & B2 & B3 & B4 & B5).
  repeat split; congruence.
Qed.

Lemma preserves_ret {A : Type} (a : A) : preserves (ret a).
Proof.
  intros s r s' [= <- <-]. split; [apply client_frame_refl|apply world_frame_refl].
Qed.

Lemma preserves_raise {A : Type} (e : exn) : preserves (@raise A e).
Proof.
  intros s r s' [= <- <-]. split; [apply client_frame_refl|apply world_frame_refl].
Qed.

Lemma preserves_lift {A : Type} (x : res A) : preserves (lift x).
Proof.
  intros s r s' [= <- <-]. split; [apply client_frame_refl|apply world_frame_refl].
Qed.

Lemma preserves_gets {A : Type} (f : client -> A) : preserves (gets f).
Proof.
  intros s r s' [= <- <-]. split; [apply client_frame_refl|apply world_frame_refl].
Qed.

Lemma preserves_set_buffers (b : buffers) : preserves (modify (set_buffers b)).
Proof.
  intros s r s' [= <- <-]. split; [|apply world_frame_refl].
  unfold client_frame. simpl. auto.
Qed.

Lemma preserves_set_ws (v : bool) : preserves (modify (set_ws v)).
Proof.
  intros s r s' [= <- <-]. split; [|apply world_frame_refl].
  unfold client_frame. simpl. auto.
Qed.

Lemma preserves_add_sent (j : json) : preserves (effect (add_sent j)).
Proof.
  intros s r s' [= <- <-]. split; [apply client_frame_refl|].
  unfold world_frame. simpl. repeat split.
Qed.

Lemma preserves_bind {A B : Type} (m : M A) (f : A -> M B) :
  preserves m -> (forall a, preserves (f a)) -> preserves (bind m f).
Proof.
  intros Hm Hf s r s'. unfold bind.
  destruct (m s) as [[a|e] s1] eqn:E; intros H.
  - destruct (Hm _ _ _ E) as [C1 W1]. destruct (Hf a _ _ _ H) as [C2 W2].
    split; [eapply client_frame_trans|eapply world_frame_trans]; eassumption.
  - inversion H; subst. exact (Hm _ _ _ E).
Qed.

Create HintDb frame.
#[local] Hint Resolve preserves_ret preserves_raise preserves_lift preserves_gets
  preserves_set_buffers preserves_set_ws preserves_add_sent : frame.

(** Walks through a monadic body: binds, then branches. *)
Ltac frame_step :=
  match goal with
  | |- preserves (bind _ _) => apply preserves_bind; [|intros]
  | |- preserves (if ?b then _ else _) => destruct b
  | |- preserves (match ?x with _ => _ end) => destruct x
  | |- preserves _ => solve [auto with frame]
  end.

Ltac frame := repeat frame_step.

Lemma preserves_send (healthy : bool) (payload : json) :
  preserves (_send healthy payload).
Proof. unfold _send. frame. Qed.

Lemma preserves_subscribe_all (healthy : bool) : preserves (_subscribe_all healthy).
Proof.
  unfold _subscribe_all. apply preserves_bind; [auto with frame|].
  intros [|sub subs]; [auto with frame|apply preserves_send].
Qed.

Section ClientFacts.

Variable json_loads : string -> option json.

Lemma preserves_handle_message (raw : string) (now_s : Z) :
  preserves (_handle_message json_loads raw now_s).
Proof. unfold _handle_message. destruct (json_loads raw); frame. Qed.

Lemma preserves_receive (frames : list (string * Z)) :
  preserves (receive json_loads frames).
Proof.
  induction frames as [|[raw now_s] rest IH]; cbn [receive].
  - auto with frame.
  - apply preserves_bind; [apply preserves_handle_message|intros; exact IH].
Qed.

Lemma preserves_connect_once (a : attempt) :
  preserves (_connect_once json_loads a).
Proof.
  unfold _connect_once.
  repeat first [ apply preserves_subscribe_all
               | apply preserves_receive
               | frame_step ].
Qed.

End ClientFacts.

(* ------------------------------------------------------------------ *)
(** ** [_handle_message] *)

(** Creating the entry when it is missing and then appending to it is one
    assignment of the old sequence extended by the envelope. *)
Lemma ensure_then_append (b : buffers) (k : key) (p : json) :
  let b1 := if dict_mem b k then b else dict_set b k [] in
  exists l, dict_get b1 k = Some l /\
            dict_set b1 k (l ++ [p]) = dict_set b k (entry b k ++ [p]).
Proof.
  unfold dict_mem, entry. destruct (dict_get b k) as [l|] eqn:E; cbn zeta.
  - exists l. auto.
  - exists []. rewrite dict_get_set, key_eqb_refl, dict_set_set. auto.
Qed.

Section Classifier.

Variable json_loads : string -> option json.

Lemma handle_message_cases (raw : string) (now_s : Z) (s : state) :
  handled s (_handle_message json_loads raw now_s s).
Proof.
  unfold _handle_message.
  destruct (json_loads raw) as [msg|]; [|apply handled_dropped].
  unfold bind, lift, gets, modify, ret, raise.
  destruct msg as [| | | | |o]; try apply handled_raised.
  cbn [py_get].
  destruct (in_control_events (get_or_none o "event")) as [[|]|e];
    [apply handled_dropped| |apply handled_raised].
  destruct (negb (truthy (get_or_none o "arg")) || negb (truthy (get_or_none o "data")));
    [apply handled_dropped|].
  destruct (get_or_none o "arg") as [| | | | |a]; try apply handled_raised.
  cbn [py_get].
  destruct (py_hash (get_or_none a "instId")) as [ki|e]; [|apply handled_raised].
  destruct (py_hash (get_or_none a "channel")) as [kc|e]; [|apply handled_raised].
  cbn [fst snd].
  destruct (ensure_then_append (_buffers (fst s)) (ki, kc)
              (JObj (envelope (get_or_none a "instId") (get_or_none a "channel")
                              (get_or_none o "data") (get_or_none o "action")
                              (strftime_iso (gmtime now_s))))) as (l & Hget & Hset).
  destruct (dict_mem (_buffers (fst s)) (ki, kc)); cbn [fst snd _buffers set_buffers];
    rewrite Hget; cbn [fst snd _buffers set_buffers]; rewrite Hset;
    destruct s as [c w]; apply (handled_appended (c, w)).
Qed.

End Classifier.

Lemma dict_get_eqb (b : buffers) (k1 k2 : key) :
  key_eqb k1 k2 = true -> dict_get b k1 = dict_get b k2.
Proof.
  intros H. induction b as [|[k' v'] r IH]; simpl; [reflexivity|].
  rewrite (key_eqb_sym k' k1), (key_eqb_trans_l _ _ k' H), (key_eqb_sym k2 k').
  now rewrite IH.
Qed.




Section ClassifierClaims.

Variable json_loads : string -> option json.

(** A frame that [json.loads] rejects is dropped. *)
Lemma unparseable_frame_is_dropped (raw : string) (now_s : Z) (s : state) :
  json_loads raw = None ->
  _handle_message json_loads raw now_s s = (Ok tt, s).
Proof. intros H. unfold _handle_message. now rewrite H. Qed.

(** An object without a truthy [arg] or without a truthy [data] is dropped,
    provided its [event], if any, can be hashed. *)
Lemma incomplete_object_is_dropped
    (raw : string) (now_s : Z) (o : list (string * json)) (ctl : bool) (s : state) :
  json_loads raw = Some (JObj o) ->
  in_control_events (get_or_none o "event") = Ok ctl ->
  truthy (get_or_none o "arg") = false \/ truthy (get_or_none o "data") = false ->
  _handle_message json_loads raw now_s s = (Ok tt, s).
Proof.
  intros Hparse Hctl Hmiss. unfold _handle_message. rewrite Hparse.
  unfold bind, lift, ret. cbn [py_get]. rewrite Hctl.
  destruct ctl; [reflexivity|].
  destruct Hmiss as [H|H]; rewrite H; cbn [negb orb]; [reflexivity|].
  now rewrite orb_true_r.
Qed.

(** C9. A frame that parses to an object whose [event] is one of [pong],
    [subscribe], [error] is handled without error and leaves the whole
    state, the Buffer Store included, as it was, whatever else the object
    carries. *)
Theorem control_frames_append_nothing
    (raw : string) (now_s : Z) (o : list (string * json)) (ev : string) (s : state) :
  json_loads raw = Some (JObj o) ->
  obj_get o "event" = Some (JStr ev) ->
  In ev control_events ->
  _handle_message json_loads raw now_s s = (Ok tt, s).
Proof.
  intros Hparse Hev Hin. unfold _handle_message. rewrite Hparse.
  unfold bind, lift, ret. cbn [py_get]. unfold get_or_none. rewrite Hev.
  unfold in_control_events. cbn [py_hash].
  destruct Hin as [<-|[<-|[<-|[]]]]; reflexivity.
Qed.

(** C7, as the code has it.  Whatever the frame, the sequence of every key
    after [_handle_message] is the sequence before it followed by the
    envelopes appended (none, or one), and each appended envelope is an
    object whose [source] is the string [WS]. *)
Theorem appended_envelopes_have_source_WS
    (raw : string) (now_s : Z) (s : state) (k : key) :
  let r := _handle_message json_loads raw now_s s in
  exists added,
    entry (_buffers (fst (snd r))) k = entry (_buffers (fst s)) k ++ added /\
    (List.length added <= 1)%nat /\
    Forall (fun e => exists o, e = JObj o /\ obj_get o "source" = Some (JStr "WS"))
           added.
Proof.
  intros r. subst r.
  destruct (handle_message_cases json_loads raw now_s s)
    as [ | e | k0 i c d a ts].
  - exists []. rewrite app_nil_r. auto.
  - exists []. rewrite app_nil_r. auto.
  - cbn [fst snd _buffers set_buffers]. unfold entry at 1.
    rewrite dict_get_set. destruct (key_eqb k0 k) eqn:E.
    + exists [JObj (envelope i c d a ts)]. repeat split.
      * unfold entry. now rewrite (dict_get_eqb _ _ _ E).
      * simpl. lia.
      * constructor; [|constructor]. eexists. split; reflexivity.
    + exists []. rewrite app_nil_r. auto.
Qed.


End ClassifierClaims.

(* ------------------------------------------------------------------ *)
(** ** [_connect_once] and [run_forever] *)

Lemma backoff_seq_capped (m : Q) (n : nat) :
  py_min (m * 2) m = m -> backoff_seq m m n = repeat m n.
Proof.
  intros H. induction n as [|n IH]; cbn [backoff_seq repeat]; [reflexivity|].
  now rewrite H, IH.
Qed.

Lemma backoff_seq_1_30 (n : nat) :
  backoff_seq 30 1 n = firstn n [1; 2; 4; 8; 16]%Q ++ repeat 30%Q (n - 5).
Proof.
  do 5 (destruct n as [|n]; [reflexivity|]).
  change (backoff_seq 30 1 (S (S (S (S (S n))))))
    with ([1; 2; 4; 8; 16]%Q ++ backoff_seq 30 30 n).
  rewrite backoff_seq_capped by reflexivity.
  cbn [firstn Nat.sub app]. rewrite firstn_nil, ?Nat.sub_0_r. reflexivity.
Qed.

Section ReconnectClaims.

Variable json_loads : string -> option json.

Lemma connect_once_no_subscriptions (a : attempt) (s : state) :
  _subscriptions (fst s) = [] ->
  _connect_once json_loads a s = (Err AssertionError, s).
Proof.
  intros H. unfold _connect_once, bind, gets. rewrite H. reflexivity.
Qed.

(** The transport cannot be opened, or does not take the subscribe
    request. *)
Lemma connect_once_early_failure (a : attempt) (s : state) :
  connect_ok a && send_ok a = false ->
  exists e s1, _connect_once json_loads a s = (Err e, s1).
Proof.
  intros H.
  destruct s as [[cc wc ws subs b lf st] w].
  unfold _connect_once, bind, gets, modify, ret, raise. cbn [fst snd _subscriptions].
  destruct subs as [|sub subs]; [eauto|].
  destruct (connect_ok a); [|eauto].
  unfold _subscribe_all, _send, bind, gets, effect, ret, raise.
  cbn [fst snd set_ws _subscriptions _ws negb].
  destruct (send_ok a); [discriminate|eauto].
Qed.

(** A run of attempts that all fail before the keepalive task is created:
    one traceback and one sleep each, the delay doubling up to the cap. *)
Lemma reconnect_loop_all_raise :
  forall (script : list attempt) (d : Q) (s : state),
    _stop (fst s) = false ->
    Forall (fun a => _subscriptions (fst s) = [] \/
                     connect_ok a && send_ok a = false) script ->
    exists s' errs,
      reconnect_loop json_loads script d s = (Ok tt, s') /\
      client_frame (fst s) (fst s') /\
      sleeps (snd s') =
        sleeps (snd s)
        ++ backoff_seq (reconnect_max_delay_seconds (client_config (fst s))) d
                       (List.length script) /\
      tracebacks (snd s') = tracebacks (snd s) ++ errs /\
      List.length errs = List.length script /\
      (_subscriptions (fst s) = [] -> errs = repeat AssertionError (List.length script)).
Proof.
  induction script as [|a rest IH]; intros d s Hrun Hall.
  - exists s, []. cbn [reconnect_loop]. unfold ret. rewrite !app_nil_r.
    repeat split; auto.
  - inversion Hall as [|a0 l0 Ha Hrest]; subst.
    assert (Hraise : exists e s1, _connect_once json_loads a s = (Err e, s1) /\
                                  (_subscriptions (fst s) = [] -> e = AssertionError)).
    { destruct (_subscriptions (fst s)) eqn:Hsubs.
      - exists AssertionError, s. split; [|reflexivity].
        now apply connect_once_no_subscriptions.
      - destruct Ha as [Ha|Ha]; [discriminate|].
        destruct (connect_once_early_failure a s Ha) as (e & s1 & E).
        exists e, s1. split; [exact E|discriminate]. }
    destruct Hraise as (e & s1 & E & He).
    destruct (preserves_connect_once json_loads a _ _ _ E)
      as [(C1 & C2 & C3 & C4 & C5) (W1 & W2 & W3 & W4 & W5)].
    cbn [reconnect_loop]. rewrite Hrun, E.
    unfold bind, effect, gets. cbn [fst snd].
    destruct (IH (py_min (d * 2) (reconnect_max_delay_seconds (client_config (fst s1))))
                 (fst s1, add_sleep d (print_exc e (snd s1))))
      as (s' & errs & Hloop & Hc & Hs & Ht & Hl & Hsub).
    + cbn [fst]. congruence.
    + cbn [fst]. rewrite C3. exact Hrest.
    + cbn [fst snd] in *. exists s', (e :: errs). rewrite Hloop.
      split; [reflexivity|]. split.
      { eapply client_frame_trans; [|exact Hc]. unfold client_frame. auto. }
      split.
      { rewrite Hs. cbn [sleeps add_sleep print_exc backoff_seq List.length].
        rewrite W4, C1, <- app_assoc. reflexivity. }
      split.
      { rewrite Ht. cbn [tracebacks add_sleep print_exc].
        rewrite W3, <- app_assoc. reflexivity. }
      split.
      { cbn [List.length]. now rewrite Hl. }
      intros Hnone. cbn [List.length repeat].
      rewrite (He Hnone), Hsub; [reflexivity|congruence].
Qed.

(** C2, what the code does.  With an empty Subscription Registry,
    [run_forever] raises nothing: every attempt fails the assertion of
    [_connect_once] inside the reconnect loop, is printed, and is followed
    by the backoff sleep, for as many attempts as the process lives. *)
Theorem empty_registry_is_retried_with_backoff
    (rotate_seconds : Z) (script : list attempt) (s : state) :
  _subscriptions (fst s) = [] ->
  exists s',
    run_forever json_loads rotate_seconds script s = (Ok tt, s') /\
    tracebacks (snd s') =
      tracebacks (snd s) ++ repeat AssertionError (List.length script) /\
    sleeps (snd s') =
      sleeps (snd s)
      ++ backoff_seq (reconnect_max_delay_seconds (client_config (fst s)))
                     (reconnect_base_delay_seconds (client_config (fst s)))
                     (List.length script).
Proof.
  intros Hnone. unfold run_forever.
  destruct (reconnect_loop_all_raise script
              (reconnect_base_delay_seconds
                 (client_config (fst (set_stop false (fst s), snd s))))
              (set_stop false (fst s), snd s))
    as (s' & errs & Hloop & _ & Hs & Ht & _ & Hsub).
  - reflexivity.
  - apply Forall_forall. intros a _. left. exact Hnone.
  - rewrite Hloop. eexists. split; [reflexivity|].
    cbn [fst snd] in *. split.
    + rewrite Ht, Hsub; [reflexivity|exact Hnone].
    + exact Hs.
Qed.

End ReconnectClaims.

(* ------------------------------------------------------------------ *)
(** ** The dict invariant along the execution *)

Lemma new_client_wf (cc : ClientConfig) (wc : WriterConfig) :
  dict_wfb (_buffers (new_client cc wc)) = true.
Proof. reflexivity. Qed.

Lemma ensure_entries_wf (subs : list Subscription) (b : buffers) :
  dict_wfb b = true -> dict_wfb (ensure_entries subs b) = true.
Proof.
  revert b. induction subs as [|sub rest IH]; intros b Hwf; cbn [ensure_entries].
  - exact Hwf.
  - apply IH. destruct (dict_mem b _); [exact Hwf|now apply dict_set_wf].
Qed.

Lemma set_subscriptions_wf (subs : list Subscription) (c : client) :
  dict_wfb (_buffers c) = true ->
  dict_wfb (_buffers (set_subscriptions subs c)) = true.
Proof. intros H. cbn. now apply ensure_entries_wf. Qed.

Lemma handle_message_wf (json_loads : string -> option json)
    (raw : string) (now_s : Z) (s : state) :
  dict_wfb (_buffers (fst s)) = true ->
  dict_wfb (_buffers (fst (snd (_handle_message json_loads raw now_s s)))) = true.
Proof.
  intros Hwf.
  destruct (handle_message_cases json_loads raw now_s s); cbn [fst snd]; auto.
  cbn [_buffers set_buffers]. now apply dict_set_wf.
Qed.

Lemma flush_buffers_wf (config : WriterConfig) (b : buffers) (now_ms : Z) (w : world) :
  dict_wfb b = true -> dict_wfb (fst (flush_buffers config b now_ms w)) = true.
Proof.
  intros Hwf. rewrite flush_buffers_spec by exact Hwf. cbn [fst].
  rewrite <- Hwf. apply dict_wfb_keys. unfold clear_all. rewrite map_map.
  reflexivity.
Qed.

(* ------------------------------------------------------------------ *)
(** ** Concrete runs *)

(** Arrival order is kept in the buffer. *)
Example three_trades_buffered_in_order :
  _buffers (fst Samples.after_three_trades) =
  [(Samples.trades_key,
    [Samples.trade_envelope "1"; Samples.trade_envelope "2"; Samples.trade_envelope "3"])].
Proof. vm_compute. reflexivity. Qed.

(** Register, feed three frames, let the rotation interval pass: one file
    with the three envelopes in order, and an empty buffer. *)
Example end_to_end_rotation :
  let s0 := (set_last_flush_ms 1700000000000 (fst Samples.after_three_trades),
             snd Samples.after_three_trades) in
  let s := _flush_loop 60 [1700000001000; 1700000030000; 1700000060000] s0 in
  fs (snd s) =
    [("./okx_out/realtime/BTC-USDT_trades_20231114T221420.json",
      Doc (JArr [Samples.trade_envelope "1"; Samples.trade_envelope "2";
                 Samples.trade_envelope "3"]))] /\
  _buffers (fst s) = [(Samples.trades_key, [])] /\
  flushed_at (snd s) = [1700000060000].
Proof. vm_compute. repeat split. Qed.

(** A transport loss after the keepalive task has ended (its ping could not
    be sent) keeps what was buffered, and the next attempt sends the whole
    subscription set again; no rotation falls within the run. *)
Example buffered_envelopes_survive_reconnect :
  let r := run_forever_tasks JsonLite.loads 60
             [mkSession Samples.subscribed_then_lost [false];
              mkSession Samples.clean_close []]
             (Samples.trades_client, Samples.healthy_disk) in
  _buffers (fst (snd r)) =
    [(Samples.trades_key, [Samples.trade_envelope "1"; Samples.trade_envelope "1"])] /\
  sent (snd (snd r)) =
    [JObj [("op", JStr "subscribe");
           ("args", JArr [JObj [("channel", JStr "trades"); ("instId", JStr "BTC-USDT")]])];
     JObj [("op", JStr "subscribe");
           ("args", JArr [JObj [("channel", JStr "trades"); ("instId", JStr "BTC-USDT")]])]] /\
  sleeps (snd (snd r)) = [1%Q].
Proof. vm_compute. repeat split. Qed.

(* ------------------------------------------------------------------ *)
(** ** The claims on concrete inputs *)

(** C1 at a failing write: the only key holds one envelope, the disk
    refuses the file, and after the flush the envelope is neither in the
    file system nor in the buffer. *)
Lemma flush_failure_loses_buffered_envelope :
  let b := [(Samples.trades_key, [Samples.trade_envelope "1"])] in
  let r := flush_buffers Samples.writer_config b 1700000060000 Samples.read_only_disk in
  tracebacks (snd r) = [OSError] /\
  fs (snd r) = [] /\
  dict_get b Samples.trades_key = Some [Samples.trade_envelope "1"] /\
  dict_get (fst r) Samples.trades_key = Some [] /\
  dict_get (fst r) Samples.trades_key <> dict_get b Samples.trades_key.
Proof. vm_compute. repeat split. discriminate. Qed.

Lemma flush_failure_discards_sequence_witness :
  let b := [((AStr "ETH-USDT", AStr "books"), [JInt 7]);
            (Samples.trades_key, [Samples.trade_envelope "1"])] in
  let r := flush_buffers Samples.writer_config b 1700000060000 Samples.read_only_disk in
  dict_get (fst r) Samples.trades_key = Some [] /\
  tracebacks (snd r) = [OSError; OSError].
Proof.
  destruct (flush_failure_discards_sequence
              Samples.writer_config 1700000060000 Samples.read_only_disk
              [((AStr "ETH-USDT", AStr "books"), [JInt 7])] []
              Samples.trades_key [Samples.trade_envelope "1"])
    as (Hget & _ & Htb & _).
  - reflexivity.
  - discriminate.
  - discriminate.
  - split; [exact Hget|exact Htb].
Defined.

Lemma flush_writes_sequence_once_and_empties_witness :
  let b := [((AStr "ETH-USDT", AStr "books"), []);
            (Samples.trades_key,
             [Samples.trade_envelope "1"; Samples.trade_envelope "2"])] in
  let r := flush_buffers Samples.writer_config b 1700000060000 Samples.healthy_disk in
  fs (snd r) =
    [("./okx_out/realtime/BTC-USDT_trades_20231114T221420.json",
      Doc (JArr [Samples.trade_envelope "1"; Samples.trade_envelope "2"]))] /\
  dict_get (fst r) Samples.trades_key = Some [] /\
  read_file (fs (snd r)) "./okx_out/realtime/BTC-USDT_trades_20231114T221420.json" =
    Some (Doc (JArr [Samples.trade_envelope "1"; Samples.trade_envelope "2"])).
Proof.
  destruct (flush_writes_sequence_once_and_empties
              Samples.writer_config 1700000060000 Samples.healthy_disk
              [((AStr "ETH-USDT", AStr "books"), [])] []
              Samples.trades_key
              [Samples.trade_envelope "1"; Samples.trade_envelope "2"])
    as (Hfs & _ & Hget & Hread).
  - reflexivity.
  - discriminate.
  - reflexivity.
  - split; [exact Hfs|]. split; [exact Hget|].
    apply Hread. intros x [].
Defined.


Lemma control_frames_append_nothing_witness :
  _handle_message JsonLite.loads Samples.subscribe_ack Samples.t0
    (Samples.trades_client, Samples.healthy_disk)
  = (Ok tt, (Samples.trades_client, Samples.healthy_disk)).
Proof.
  apply (control_frames_append_nothing JsonLite.loads Samples.subscribe_ack Samples.t0
           [("event", JStr "subscribe");
            ("arg", JObj [("channel", JStr "trades"); ("instId", JStr "BTC-USDT")]);
            ("data", JArr [JInt 1])]
           "subscribe").
  - reflexivity.
  - reflexivity.
  - right. left. reflexivity.
Defined.

(** C7 at a trade frame: the envelope that is appended carries the source
    [WS], not [stream]. *)
Lemma appended_envelope_source_is_not_stream :
  let r := _handle_message JsonLite.loads (Samples.trade "1") Samples.t0
             (Samples.trades_client, Samples.healthy_disk) in
  exists o,
    dict_get (_buffers (fst (snd r))) Samples.trades_key = Some [JObj o] /\
    obj_get o "source" = Some (JStr "WS") /\
    obj_get o "source" <> Some (JStr "stream").
Proof.
  eexists. vm_compute. repeat split. discriminate.
Qed.



(** C4 at the frame [[]]: it parses, it has neither [arg] nor [data], and
    [_handle_message] raises [AttributeError] on it in every state.  The
    exception ends the receive loop of an otherwise healthy attempt, so the
    data frame that follows on the same connection is never handled.  With
    the keepalive task still pending, the [finally] clause of
    [_connect_once] turns the exception into [CancelledError], and
    [run_forever] ends there: nothing is printed, there is no sleep, and the
    next attempt of the script is never made.  With a keepalive task that
    has ended (its ping could not be sent), the exception reaches
    [run_forever], which prints it and sleeps as after a connection
    failure. *)
Theorem bare_array_frame_raises_and_ends_the_connection :
  JsonLite.loads "[]" = Some (JArr []) /\
  (forall now_s s,
     _handle_message JsonLite.loads "[]" now_s s = (Err AttributeError, s)) /\
  (let r := run_forever_tasks JsonLite.loads 60
              [mkSession (mkAttempt true true
                            [("[]", Samples.t0); (Samples.trade "1", Samples.t0)] true)
                         [];
               mkSession Samples.clean_close []]
              (Samples.trades_client, Samples.healthy_disk) in
   fst r = Cancelled /\
   tracebacks (snd (snd r)) = [] /\
   sleeps (snd (snd r)) = [] /\
   sent (snd (snd r)) = [subscribe_request [mkSubscription "trades" "BTC-USDT"]] /\
   _buffers (fst (snd r)) = [(Samples.trades_key, [])]) /\
  (let r := run_forever_tasks JsonLite.loads 60
              [mkSession (mkAttempt true true
                            [("[]", Samples.t0); (Samples.trade "1", Samples.t0)] true)
                         [false]]
              (Samples.trades_client, Samples.healthy_disk) in
   tracebacks (snd (snd r)) = [AttributeError] /\
   sleeps (snd (snd r)) = [1%Q] /\
   _buffers (fst (snd r)) = [(Samples.trades_key, [])]).
Proof.
  split; [reflexivity|]. split; [|split].
  - intros now_s s. unfold _handle_message.
    change (JsonLite.loads "[]") with (Some (JArr [])). reflexivity.
  - vm_compute. repeat split.
  - vm_compute. repeat split.
Qed.

Lemma empty_registry_is_retried_with_backoff_witness :
  let r := run_forever JsonLite.loads 60
             [Samples.refused; Samples.clean_close; Samples.clean_close]
             (Samples.unconfigured, Samples.healthy_disk) in
  fst r = Ok tt /\
  tracebacks (snd (snd r)) = [AssertionError; AssertionError; AssertionError] /\
  sleeps (snd (snd r)) = [1; 2; 4]%Q.
Proof.
  destruct (empty_registry_is_retried_with_backoff JsonLite.loads 60
              [Samples.refused; Samples.clean_close; Samples.clean_close]
              (Samples.unconfigured, Samples.healthy_disk))
    as (s' & Hrun & Htb & Hsl).
  - reflexivity.
  - rewrite Hrun. split; [reflexivity|]. split; [exact Htb|exact Hsl].
Defined.

(* ------------------------------------------------------------------ *)
(** ** [set_subscriptions] *)

Lemma ensure_entries_get (subs : list Subscription) :
  forall (b : buffers) (k : key),
    dict_get (ensure_entries subs b) k =
    match dict_get b k with
    | Some l => Some l
    | None => if existsb (fun sub => key_eqb (sub_key sub) k) subs
              then Some [] else None
    end.
Proof.
  induction subs as [|sub rest IH]; intros b k; cbn [ensure_entries existsb].
  - destruct (dict_get b k); reflexivity.
  - rewrite IH. fold (sub_key sub). unfold dict_mem.
    destruct (dict_get b (sub_key sub)) as [l0|] eqn:Hk.
    + destruct (dict_get b k) eqn:Hb; [reflexivity|].
      destruct (key_eqb (sub_key sub) k) eqn:E; [|reflexivity].
      rewrite (dict_get_eqb _ _ _ E) in Hk. congruence.
    + rewrite dict_get_set.
      destruct (key_eqb (sub_key sub) k) eqn:E; cbn [orb].
      * rewrite <- (dict_get_eqb _ _ _ E), Hk. reflexivity.
      * reflexivity.
Qed.

Lemma ensure_entries_present (subs : list Subscription) (b : buffers) :
  (forall sub, In sub subs -> dict_mem b (sub_key sub) = true) ->
  ensure_entries subs b = b.
Proof.
  induction subs as [|sub rest IH]; intros H; cbn [ensure_entries].
  - reflexivity.
  - fold (sub_key sub). rewrite (H sub) by (now left).
    apply IH. intros x Hx. apply H. now right.
Qed.

(** X1. [set_subscriptions] replaces the registry, keeps every entry of the
    Buffer Store with its content, and adds an empty entry for each
    subscribed key that had none; it adds nothing else. *)
Theorem set_subscriptions_keeps_and_creates
    (subs : list Subscription) (c : client) (k : key) :
  _subscriptions (set_subscriptions subs c) = subs /\
  dict_get (_buffers (set_subscriptions subs c)) k =
    match dict_get (_buffers c) k with
    | Some l => Some l
    | None => if existsb (fun sub => key_eqb (sub_key sub) k) subs
              then Some [] else None
    end.
Proof.
  split; [reflexivity|]. cbn [set_subscriptions _buffers set_buffers].
  apply ensure_entries_get.
Qed.

(** X2. Registering the same subscriptions again changes nothing. *)
Theorem set_subscriptions_idempotent (subs : list Subscription) (c : client) :
  set_subscriptions subs (set_subscriptions subs c) = set_subscriptions subs c.
Proof.
  unfold set_subscriptions. destruct c as [cc wc ws ss b lf st].
  cbn [_buffers set_buffers set_subs client_config writer _ws _subscriptions
       _last_flush_ms _stop].
  rewrite (ensure_entries_present subs (ensure_entries subs b)); [reflexivity|].
  intros sub Hin. unfold dict_mem. rewrite ensure_entries_get.
  destruct (dict_get b (sub_key sub)); [reflexivity|].
  assert (Hex : existsb (fun x => key_eqb (sub_key x) (sub_key sub)) subs = true).
  { apply existsb_exists. exists sub. split; [exact Hin|apply key_eqb_refl]. }
  now rewrite Hex.
Qed.

(* ------------------------------------------------------------------ *)
(** ** More on [_handle_message] and the receive loop *)

Section ClassifierMore.

Variable json_loads : string -> option json.

(** X3. Which frames raise.  A frame that does not parse is dropped.  A parsed
    frame raises exactly when it is not an object, or its [event] cannot be
    hashed, or it is a data frame (no control event, truthy [arg] and
    [data]) whose [arg] is not an object or whose [instId] or [channel]
    cannot be hashed.  The exception is [AttributeError] or [TypeError], and
    the state is left as it was. *)
Theorem handle_message_raises_exactly
    (raw : string) (now_s : Z) (s : state) :
  match json_loads raw with
  | None => _handle_message json_loads raw now_s s = (Ok tt, s)
  | Some msg =>
      if frame_raises msg
      then exists e, _handle_message json_loads raw now_s s = (Err e, s) /\
                     (e = AttributeError \/ e = TypeError)
      else fst (_handle_message json_loads raw now_s s) = Ok tt
  end.
Proof.
  unfold _handle_message.
  destruct (json_loads raw) as [msg|]; [|reflexivity].
  unfold bind, lift, gets, modify, ret, raise, frame_raises, hashable.
  destruct msg as [| | | | |o]; try (eexists; split; [reflexivity|auto]).
  cbn [py_get].
  destruct (in_control_events (get_or_none o "event")) as [[|]|e] eqn:Hev.
  - reflexivity.
  - destruct (negb (truthy (get_or_none o "arg")) || negb (truthy (get_or_none o "data")));
      [reflexivity|].
    destruct (get_or_none o "arg") as [| | | | |a];
      try (eexists; split; [reflexivity|auto]).
    cbn [py_get].
    destruct (py_hash (get_or_none a "instId")) as [ki|e] eqn:Hi.
    + destruct (py_hash (get_or_none a "channel")) as [kc|e] eqn:Hc; cbn [andb negb].
      * cbn [fst snd].
        destruct (ensure_then_append (_buffers (fst s)) (ki, kc)
                    (JObj (envelope (get_or_none a "instId") (get_or_none a "channel")
                                    (get_or_none o "data") (get_or_none o "action")
                                    (strftime_iso (gmtime now_s))))) as (l & Hget & _).
        destruct (dict_mem (_buffers (fst s)) (ki, kc));
          cbn [fst snd _buffers set_buffers]; rewrite Hget; reflexivity.
      * exists e. split; [reflexivity|].
        destruct (get_or_none a "channel"); simpl in Hc; inversion Hc; auto.
    + cbn [andb negb]. exists e. split; [reflexivity|].
      destruct (get_or_none a "instId"); simpl in Hi; inversion Hi; auto.
  - exists e. split; [reflexivity|].
    unfold in_control_events in Hev.
    destruct (get_or_none o "event"); simpl in Hev; inversion Hev; auto.
Qed.

(** X4. One frame changes at most one entry of the Buffer Store, removes no
    key, and touches neither the disk nor the logs nor the rest of the
    client. *)
Theorem handle_message_touches_one_entry
    (raw : string) (now_s : Z) (s : state) :
  let s' := snd (_handle_message json_loads raw now_s s) in
  (exists k0, forall k, key_eqb k0 k = false ->
                        dict_get (_buffers (fst s')) k = dict_get (_buffers (fst s)) k) /\
  (forall k, dict_mem (_buffers (fst s)) k = true ->
             dict_mem (_buffers (fst s')) k = true) /\
  snd s' = snd s /\
  fst s' = set_buffers (_buffers (fst s')) (fst s).
Proof.
  intros s'. subst s'.
  destruct (handle_message_cases json_loads raw now_s s) as [ | e | k0 i c d a ts];
    cbn [fst snd _buffers set_buffers].
  - repeat split; auto.
    + exists (ANone, ANone). auto.
    + destruct s as [[] w]; reflexivity.
  - repeat split; auto.
    + exists (ANone, ANone). auto.
    + destruct s as [[] w]; reflexivity.
  - repeat split.
    + exists k0. intros k Hk. now rewrite dict_get_set, Hk.
    + intros k. unfold dict_mem. rewrite dict_get_set.
      destruct (key_eqb k0 k); auto.
Qed.


End ClassifierMore.

Lemma grows_refl (s : state) : grows s s.
Proof.
  split; [|auto]. intros k. exists []. now rewrite app_nil_r.
Qed.

Lemma grows_trans (s1 s2 s3 : state) : grows s1 s2 -> grows s2 s3 -> grows s1 s3.
Proof.
  intros [A1 A2] [B1 B2]. split.
  - intros k. destruct (A1 k) as [x Hx]. destruct (B1 k) as [y Hy].
    exists (x ++ y). now rewrite Hy, Hx, app_assoc.
  - auto.
Qed.

Lemma grows_same_buffers (s s' : state) :
  _buffers (fst s') = _buffers (fst s) -> grows s s'.
Proof.
  intros H. unfold grows. rewrite H. split; [|auto].
  intros k. exists []. now rewrite app_nil_r.
Qed.


Section ReceiveLoop.

Variable json_loads : string -> option json.

Lemma handle_message_grows (raw : string) (now_s : Z) (s : state) :
  grows s (snd (_handle_message json_loads raw now_s s)).
Proof.
  destruct (handle_message_cases json_loads raw now_s s) as [ | e | k0 i c d a ts];
    cbn [snd]; try apply grows_refl.
  split; cbn [fst snd _buffers set_buffers].
  - intros k. unfold entry at 1. rewrite dict_get_set.
    destruct (key_eqb k0 k) eqn:E.
    + eexists. unfold entry. rewrite (dict_get_eqb _ _ _ E). reflexivity.
    + exists []. now rewrite app_nil_r.
  - intros k. unfold dict_mem. rewrite dict_get_set.
    destruct (key_eqb k0 k); auto.
Qed.

(** The receive loop changes the Buffer Store only. *)
Lemma handle_message_rest (raw : string) (now_s : Z) (s : state) :
  let s' := snd (_handle_message json_loads raw now_s s) in
  snd s' = snd s /\ client_frame (fst s) (fst s') /\ _ws (fst s') = _ws (fst s).
Proof.
  intros s'. subst s'.
  destruct (handle_message_cases json_loads raw now_s s) as [ | e | k0 i c d a ts];
    cbn [fst snd]; unfold client_frame; cbn; auto 10.
Qed.

Lemma receive_grows (frames : list (string * Z)) :
  forall s, grows s (snd (receive json_loads frames s)).
Proof.
  induction frames as [|[raw now_s] rest IH]; intros s; cbn [receive].
  - apply grows_refl.
  - unfold bind.
    pose proof (handle_message_grows raw now_s s) as Hg.
    destruct (_handle_message json_loads raw now_s s) as [[u|e] s1]; cbn [snd] in *.
    + eapply grows_trans; [exact Hg|apply IH].
    + exact Hg.
Qed.

Lemma receive_rest (frames : list (string * Z)) :
  forall s,
    let s' := snd (receive json_loads frames s) in
    snd s' = snd s /\ client_frame (fst s) (fst s') /\ _ws (fst s') = _ws (fst s).
Proof.
  induction frames as [|[raw now_s] rest IH]; intros s; cbn [receive].
  - cbn. unfold client_frame. auto 10.
  - unfold bind.
    pose proof (handle_message_rest raw now_s s) as Hr.
    destruct (_handle_message json_loads raw now_s s) as [[u|e] s1]; cbn [snd] in *.
    + destruct Hr as (Hw & Hc & Hws). destruct (IH s1) as (Hw' & Hc' & Hws').
      cbn zeta in Hw', Hc', Hws'.
      split; [congruence|]. split; [|congruence].
      eapply client_frame_trans; eassumption.
    + exact Hr.
Qed.

(** X5. The receive loop never loses a buffered envelope, also when a frame
    makes it raise: the sequence under every key afterwards starts with the
    sequence it held before, and every key is still there. *)
Theorem receive_never_drops_buffered
    (frames : list (string * Z)) (s : state) (k : key) :
  let s' := snd (receive json_loads frames s) in
  (exists added, entry (_buffers (fst s')) k = entry (_buffers (fst s)) k ++ added) /\
  (dict_mem (_buffers (fst s)) k = true -> dict_mem (_buffers (fst s')) k = true).
Proof.
  intros s'. destruct (receive_grows frames s) as [H1 H2]. split; auto.
Qed.



End ReceiveLoop.

(* ------------------------------------------------------------------ *)
(** ** More on [flush_buffers] *)

Lemma flush_items_all_empty (config : WriterConfig) (now_ms : Z) :
  forall (items : buffers) (bw : buffers * world),
    (forall p, In p items -> snd p = []) ->
    flush_items config now_ms items bw = bw.
Proof.
  induction items as [|[[i c] m] rest IH]; intros [b w] H; cbn [flush_items].
  - reflexivity.
  - assert (Hm : m = []) by (apply (H ((i, c), m)); now left).
    subst m. cbn [flush_item]. apply IH. intros p Hp. apply H. now right.
Qed.

Lemma clear_all_empty (b : buffers) : forall p, In p (clear_all b) -> snd p = [].
Proof.
  unfold clear_all. intros p Hp. apply in_map_iff in Hp.
  destruct Hp as (x & <- & _). reflexivity.
Qed.

(** X7. After a flush every sequence is empty, whatever the disk did, and a
    second flush with no frame in between writes no file, prints nothing and
    changes nothing: empty entries produce no files. *)
Theorem second_flush_is_a_no_op
    (config : WriterConfig) (b : buffers) (now_ms later_ms : Z) (w : world) :
  dict_wfb b = true ->
  let r := flush_buffers config b now_ms w in
  (forall p, In p (fst r) -> snd p = []) /\
  map fst (fst r) = map fst b /\
  flush_buffers config (fst r) later_ms (snd r) = r.
Proof.
  intros Hwf r. subst r. rewrite flush_buffers_spec by exact Hwf. cbn [fst snd].
  split; [apply clear_all_empty|]. split.
  - unfold clear_all. rewrite map_map. reflexivity.
  - unfold flush_buffers. apply flush_items_all_empty. apply clear_all_empty.
Qed.

Lemma healthy_item_files (config : WriterConfig) (now_ms : Z)
    (flt : string -> fault_kind) (b : buffers) :
  (forall p, flt p = NoFault) ->
  flat_map (item_files config now_ms flt) b = healthy_files config now_ms b /\
  flat_map (item_errors config now_ms flt) b = [].
Proof.
  intros Hok. unfold healthy_files.
  induction b as [|[k m] rest [IH1 IH2]]; cbn [flat_map filter map]; [auto|].
  assert (Hf : item_files config now_ms flt (k, m) =
               match m with
               | [] => []
               | _ :: _ => [(_build_filename config (fst k) (snd k) now_ms,
                             Doc (JArr m))]
               end).
  { unfold item_files. cbn [fst snd]. rewrite Hok. destruct m; reflexivity. }
  assert (He : item_errors config now_ms flt (k, m) = []).
  { unfold item_errors. cbn [fst snd]. rewrite Hok. destruct m; reflexivity. }
  rewrite Hf, He, IH1, IH2. cbn [snd]. destruct m; auto.
Qed.

Lemma healthy_flush_files_helper
    (config : WriterConfig) (b : buffers) (now_ms : Z) (w : world) :
  dict_wfb b = true ->
  (forall p, fault w p = NoFault) ->
  fs (snd (flush_buffers config b now_ms w)) = fs w ++ healthy_files config now_ms b /\
  tracebacks (snd (flush_buffers config b now_ms w)) = tracebacks w /\
  fst (flush_buffers config b now_ms w) = clear_all b.
Proof.
  intros Hwf Hok. rewrite flush_buffers_spec by exact Hwf.
  destruct (healthy_item_files config now_ms (fault w) b Hok) as [H1 H2].
  cbn [fst snd fs tracebacks world_after]. rewrite H1, H2, app_nil_r. auto.
Qed.

(** X8. On a disk without faults a flush writes one file for each non-empty
    entry, in the insertion order of the keys, holding the whole sequence;
    it writes nothing for an empty entry, prints nothing, and leaves every
    entry empty. *)
Theorem healthy_flush_writes_each_nonempty_entry
    (config : WriterConfig) (b : buffers) (now_ms : Z) (w : world) :
  dict_wfb b = true ->
  (forall p, fault w p = NoFault) ->
  let r := flush_buffers config b now_ms w in
  fs (snd r) = fs w ++ healthy_files config now_ms b /\
  tracebacks (snd r) = tracebacks w /\
  fst r = clear_all b.
Proof.
  intros Hwf Hok r. subst r. now apply healthy_flush_files_helper.
Qed.

Lemma string_append_assoc (a b c : string) :
  ((a ++ b) ++ c)%string = (a ++ (b ++ c))%string.
Proof. induction a as [|x a IH]; simpl; [reflexivity|now rewrite IH]. Qed.

Lemma string_neq_append (a : string) (x : ascii) (b : string) :
  String.eqb a (a ++ String x b) = false.
Proof.
  apply String.eqb_neq. induction a as [|h a IH]; simpl.
  - discriminate.
  - intros H. injection H as H. now apply IH.
Qed.

(** File names do not tell where the instrument ends and the channel
    begins. *)
Lemma build_filename_ambiguous (config : WriterConfig) (i c d : string) (now_ms : Z) :
  _build_filename config (AStr (i ++ "_" ++ c)) (AStr d) now_ms =
  _build_filename config (AStr i) (AStr (c ++ "_" ++ d)) now_ms.
Proof.
  unfold _build_filename. cbn [py_str]. f_equal.
  rewrite !string_append_assoc. reflexivity.
Qed.

(** X9. Two different keys can share a file name: the instrument [i_c] with
    the channel [d], and the instrument [i] with the channel [c_d].  In one
    flush on a healthy disk both are written to the same path, the second
    over the first, and both entries are emptied: the file holds the second
    sequence only. *)
Theorem colliding_file_names_overwrite
    (config : WriterConfig) (now_ms : Z) (w : world)
    (i c d : string) (m1 m2 : list json) :
  m1 <> [] ->
  m2 <> [] ->
  (forall p, fault w p = NoFault) ->
  let K1 := (AStr (i ++ "_" ++ c), AStr d) in
  let K2 := (AStr i, AStr (c ++ "_" ++ d)) in
  let path := _build_filename config (fst K2) (snd K2) now_ms in
  let r := flush_buffers config [(K1, m1); (K2, m2)] now_ms w in
  key_eqb K1 K2 = false /\
  fs (snd r) = fs w ++ [(path, Doc (JArr m1)); (path, Doc (JArr m2))] /\
  read_file (fs (snd r)) path = Some (Doc (JArr m2)) /\
  fst r = [(K1, []); (K2, [])].
Proof.
  intros H1 H2 Hok K1 K2 path r.
  assert (Hneq : key_eqb K2 K1 = false).
  { unfold key_eqb, K1, K2. cbn [fst snd py_eqb atom_num].
    change ("_" ++ c)%string with (String "_" c).
    now rewrite string_neq_append. }
  assert (Hwf : dict_wfb [(K1, m1); (K2, m2)] = true).
  { unfold dict_wfb, dict_mem, dict_get. now rewrite Hneq. }
  destruct (healthy_flush_files_helper config [(K1, m1); (K2, m2)] now_ms w Hwf Hok)
    as (Hfs & _ & Hb).
  fold r in Hfs, Hb.
  assert (Hfiles : healthy_files config now_ms [(K1, m1); (K2, m2)]
                   = [(path, Doc (JArr m1)); (path, Doc (JArr m2))]).
  { unfold healthy_files. cbn [filter snd].
    destruct m1; [contradiction|]. destruct m2; [contradiction|].
    cbn [map fst snd]. unfold K1. cbn [fst snd].
    now rewrite build_filename_ambiguous. }
  rewrite Hfiles in Hfs. repeat split.
  - now rewrite key_eqb_sym.
  - exact Hfs.
  - rewrite Hfs.
    change (fs w ++ [(path, Doc (JArr m1)); (path, Doc (JArr m2))])
      with (fs w ++ [(path, Doc (JArr m1))] ++ (path, Doc (JArr m2)) :: []).
    rewrite app_assoc. apply read_file_app_last. intros x [].
  - exact Hb.
Qed.

(* ------------------------------------------------------------------ *)
(** ** More on [_flush_loop] *)

Lemma flush_tick_due_log (rotate_ms now_ms : Z) (c : client) (w : world) :
  _last_flush_ms c <> 0 ->
  rotate_ms <= now_ms - _last_flush_ms c ->
  let s' := flush_tick rotate_ms now_ms (c, w) in
  flushed_at (snd s') = flushed_at w ++ [now_ms] /\
  _last_flush_ms (fst s') = now_ms /\
  _stop (fst s') = _stop c.
Proof.
  intros Hset Hdue s'. subst s'. rewrite flush_tick_due by assumption.
  cbn [fst snd]. unfold flush_buffers.
  pose proof (flush_items_untouched (writer c) now_ms (_buffers c) (_buffers c)
                                    (add_flush now_ms w)) as Hu.
  cbn zeta in Hu. destruct Hu as (_ & _ & _ & Hfl).
  rewrite Hfl. repeat split.
Qed.


Lemma flush_ticks_spaced (rotate_ms : Z) :
  forall (clock : list Z) (c : client) (w : world),
    _stop c = false ->
    _last_flush_ms c <> 0 ->
    Forall (fun t => t <> 0) clock ->
    exists new,
      flushed_at (snd (flush_ticks rotate_ms clock (c, w))) = flushed_at w ++ new /\
      spaced rotate_ms (_last_flush_ms c) new /\
      (forall t, In t new -> In t clock).
Proof.
  induction clock as [|t rest IH]; intros c w Hrun Hset Hclock.
  - exists []. cbn. rewrite app_nil_r. repeat split. intros t [].
  - inversion Hclock as [|t0 l0 Ht Hrest]; subst.
    cbn [flush_ticks fst]. rewrite Hrun.
    destruct (Z_le_gt_dec rotate_ms (t - _last_flush_ms c)) as [Hdue|Hearly].
    + destruct (flush_tick_due_log rotate_ms t c w Hset Hdue) as (Hlog & Hlast & Hstop).
      destruct (flush_tick rotate_ms t (c, w)) as [c1 w1]. cbn [fst snd] in *.
      destruct (IH c1 w1) as (new & Hnew & Hsp & Hin); [congruence|congruence|exact Hrest|].
      exists (t :: new). rewrite Hnew, Hlog, <- app_assoc. repeat split.
      * exact Hdue.
      * rewrite <- Hlast. exact Hsp.
      * intros x [<-|Hx]; [now left|right; now apply Hin].
    + rewrite flush_tick_quiet by (auto; lia).
      destruct (IH c w Hrun Hset Hrest) as (new & Hnew & Hsp & Hin).
      exists new. repeat split; auto. intros x Hx. right. now apply Hin.
Qed.

(** X11. Two flushes of the poll loop are never less than the rotation interval
    apart: the clock readings at which it flushes are readings of the loop,
    the first at least the interval after the recorded [_last_flush_ms], each
    next one at least the interval after the one before. *)
Theorem flushes_are_an_interval_apart
    (rotate_seconds : Z) (clock : list Z) (c : client) (w : world) :
  _stop c = false ->
  _last_flush_ms c <> 0 ->
  Forall (fun t => t <> 0) clock ->
  exists new,
    flushed_at (snd (_flush_loop rotate_seconds clock (c, w))) = flushed_at w ++ new /\
    spaced (rotate_seconds * 1000) (_last_flush_ms c) new /\
    (forall t, In t new -> In t clock).
Proof. intros. unfold _flush_loop. now apply flush_ticks_spaced. Qed.

(* ------------------------------------------------------------------ *)
(** ** From the frames to the file *)






(* ------------------------------------------------------------------ *)
(** ** [_ping_loop] *)

Lemma ping_loop_idle (sends : list bool) (s : state) :
  _stop (fst s) = true \/ _ws (fst s) = false ->
  _ping_loop sends s = (Finished, s).
Proof.
  intros H.
  assert (E : _stop (fst s) || negb (_ws (fst s)) = true).
  { destruct H as [-> | ->]; [reflexivity|apply orb_true_r]. }
  destruct sends; cbn [_ping_loop]; now rewrite E.
Qed.

Lemma ping_loop_running :
  forall (sends : list bool) (c : client) (w : world),
    _stop c = false ->
    _ws c = true ->
    _ping_loop sends (c, w) =
    (if forallb (fun b => b) sends then Pending else Finished,
     (c, mkWorld (fs w) (fault w) (tracebacks w) (sleeps w)
                 (sent w ++ repeat ping_payload (leading_true sends))
                 (flushed_at w))).
Proof.
  induction sends as [|h rest IH]; intros c w Hrun Hws; cbn [_ping_loop fst].
  - rewrite Hrun, Hws. cbn. rewrite app_nil_r. destruct w; reflexivity.
  - rewrite Hrun, Hws. cbn [negb orb].
    unfold _send, bind, gets, effect, ret, raise. cbn [fst snd]. rewrite Hws.
    cbn [negb]. destruct h; cbn [forallb leading_true andb repeat].
    + rewrite IH by assumption. cbn [fs fault tracebacks sleeps sent flushed_at add_sent].
      rewrite <- app_assoc. reflexivity.
    + rewrite app_nil_r. destruct w; reflexivity.
Qed.

(** X13. The keepalive task sends one ping after every sleep until a send
    fails, then ends without raising and sends nothing more; it is still
    pending at its cancellation exactly when no send failed.  It changes
    nothing but the list of payloads sent.  Without a transport, or once
    [_stop] is set, it ends at once without sending. *)
Theorem ping_loop_stops_at_first_failed_send (sends : list bool) (s : state) :
  (_stop (fst s) = false -> _ws (fst s) = true ->
   let r := _ping_loop sends s in
   fst r = (if forallb (fun b => b) sends then Pending else Finished) /\
   fst (snd r) = fst s /\
   sent (snd (snd r)) = sent (snd s) ++ repeat ping_payload (leading_true sends) /\
   world_frame (snd s) (snd (snd r))) /\
  (_stop (fst s) = true \/ _ws (fst s) = false ->
   _ping_loop sends s = (Finished, s)).
Proof.
  split.
  - intros Hrun Hws r. subst r. destruct s as [c w].
    rewrite ping_loop_running by assumption.
    cbn [fst snd sent]. unfold world_frame. cbn. auto 10.
  - apply ping_loop_idle.
Qed.

(* ------------------------------------------------------------------ *)
(** ** [save_rest_data] *)

Lemma data_list_get (r : res json) (l : list json) :
  data_list r l ->
  match r with
  | Ok v => get_default v "data" (JArr [])
  | Err e => Err e
  end = Ok (JArr l).
Proof.
  intros (o & -> & [H|[H ->]]); cbn [get_default]; now rewrite H.
Qed.

Lemma first_or_empty_list (l : list json) :
  first_or_empty (JArr l) = Ok (hd (JObj []) l).
Proof. destruct l; reflexivity. Qed.

(** X14. On four responses that carry lists (or no [data] at all),
    [save_rest_data] writes one document to [<output_dir>/<inst_id>.json]:
    the instrument, the time, the source [REST], the candles and trades as
    received, and the first order book and first ticker, or an empty object
    where the list is empty. *)
Theorem save_rest_data_writes_snapshot
    (inst_id output_dir : string) (now_s : Z)
    (candles_r trades_r orderbook_r ticker_r : res json)
    (lc lt lo lk : list json) (w : world) :
  data_list candles_r lc ->
  data_list trades_r lt ->
  data_list orderbook_r lo ->
  data_list ticker_r lk ->
  let path := path_join output_dir (inst_id ++ ".json") in
  fault w path = NoFault ->
  save_rest_data inst_id output_dir now_s candles_r trades_r orderbook_r ticker_r w =
  (Ok tt,
   add_file path
     (Doc (JObj [("instId", JStr inst_id);
                 ("timestamp", JStr (strftime_iso (gmtime now_s)));
                 ("source", JStr "REST");
                 ("data", JObj [("candles", JArr lc); ("trades", JArr lt);
                                ("orderbook", hd (JObj []) lo);
                                ("tickers", hd (JObj []) lk)])]))
     w).
Proof.
  intros Hc Ht Ho Hk path Hok. unfold save_rest_data.
  rewrite (data_list_get _ _ Hc), (data_list_get _ _ Ht),
          (data_list_get _ _ Ho), (data_list_get _ _ Hk).
  rewrite !first_or_empty_list. fold path. now rewrite Hok.
Qed.

Lemma response_data_get (r : res json) :
  match response_data r with
  | Some d =>
      match r with
      | Ok v => get_default v "data" (JArr [])
      | Err e => Err e
      end = Ok d
  | None =>
      exists e,
        match r with
        | Ok v => get_default v "data" (JArr [])
        | Err e => Err e
        end = Err e /\
        (forall e0, r = Err e0 -> e = e0)
  end.
Proof.
  destruct r as [v|e].
  - destruct v; cbn [response_data get_default];
      try (exists AttributeError; split; [reflexivity|discriminate]).
    reflexivity.
  - cbn. exists e. split; [reflexivity|]. now intros e0 [= ->].
Qed.

Lemma can_take_first_spec (v : json) :
  if can_take_first v
  then exists x, first_or_empty v = Ok x
  else exists e, first_or_empty v = Err e.
Proof.
  unfold can_take_first, first_or_empty.
  destruct v as [|b|z|s|l|o]; cbn [truthy negb orb].
  - eexists; reflexivity.
  - destruct b; cbn; eexists; reflexivity.
  - destruct (z =? 0); cbn; eexists; reflexivity.
  - destruct s; cbn; eexists; reflexivity.
  - destruct l; cbn; eexists; reflexivity.
  - destruct o; cbn; eexists; reflexivity.
Qed.

(** X15. [save_rest_data] is all or nothing, once the output directory is
    there.  It returns normally exactly
    when the four requests gave objects, a first element can be taken of the
    order book and ticker data, and the file can be written; it has then
    written one complete document.  In every other case it raises: nothing
    is printed, and the disk is as before except for a truncated file when
    the dump itself failed.  The exception of a request that raised is not
    swallowed: that of the first request is the result, and that of a later
    one is when the requests before it gave objects. *)
Theorem save_rest_data_all_or_nothing
    (inst_id output_dir : string) (now_s : Z)
    (candles_r trades_r orderbook_r ticker_r : res json) (w : world) :
  let path := path_join output_dir (inst_id ++ ".json") in
  let r := save_rest_data inst_id output_dir now_s
             candles_r trades_r orderbook_r ticker_r w in
  let complete := snapshot_inputs candles_r trades_r orderbook_r ticker_r in
  tracebacks (snd r) = tracebacks w /\
  (fst r = Ok tt <-> complete /\ fault w path = NoFault) /\
  (fst r = Ok tt ->
   exists payload,
     fs (snd r) = fs w ++ [(path, Doc (JObj payload))] /\
     obj_get payload "instId" = Some (JStr inst_id) /\
     obj_get payload "source" = Some (JStr "REST") /\
     obj_get payload "timestamp" = Some (JStr (strftime_iso (gmtime now_s)))) /\
  (forall e, fst r = Err e ->
     fs (snd r) = fs w \/
     (complete /\ fault w path = DumpFails /\ e = OSError /\
      fs (snd r) = fs w ++ [(path, Partial)])) /\
  (forall e, candles_r = Err e -> r = (Err e, w)) /\
  (forall e, response_data candles_r <> None ->
             trades_r = Err e -> r = (Err e, w)) /\
  (forall e, response_data candles_r <> None -> response_data trades_r <> None ->
             orderbook_r = Err e -> r = (Err e, w)) /\
  (forall e, response_data candles_r <> None -> response_data trades_r <> None ->
             response_data orderbook_r <> None ->
             ticker_r = Err e -> r = (Err e, w)).
Proof.
  intros path r complete. subst r complete. unfold save_rest_data, snapshot_inputs.
  fold path.
  pose proof (response_data_get candles_r) as Hc.
  pose proof (response_data_get trades_r) as Ht.
  pose proof (response_data_get orderbook_r) as Ho.
  pose proof (response_data_get ticker_r) as Hk.
  destruct (response_data candles_r) as [c|].
  2:{ destruct Hc as (e & -> & He). cbn [fst snd].
      repeat split; try discriminate; try congruence; auto.
      - intros [(c & t & o & k & H & _) _]. discriminate.
      - intros e0 H. now rewrite (He e0 H). }
  rewrite Hc.
  destruct (response_data trades_r) as [t|].
  2:{ destruct Ht as (e & -> & He). cbn [fst snd].
      repeat split; try discriminate; try congruence; auto.
      - intros [(c0 & t & o & k & _ & H & _) _]. discriminate.
      - intros e0 H. subst candles_r. discriminate.
      - intros e0 _ H. now rewrite (He e0 H). }
  rewrite Ht.
  destruct (response_data orderbook_r) as [o|].
  2:{ destruct Ho as (e & -> & He). cbn [fst snd].
      repeat split; try discriminate; try congruence; auto.
      - intros [(c0 & t0 & o & k & _ & _ & H & _) _]. discriminate.
      - intros e0 H. subst candles_r. discriminate.
      - intros e0 _ H. subst trades_r. discriminate.
      - intros e0 _ _ H. now rewrite (He e0 H). }
  rewrite Ho.
  destruct (response_data ticker_r) as [k|].
  2:{ destruct Hk as (e & -> & He). cbn [fst snd].
      repeat split; try discriminate; try congruence; auto.
      - intros [(c0 & t0 & o0 & k & _ & _ & _ & H & _) _]. discriminate.
      - intros e0 H. subst candles_r. discriminate.
      - intros e0 _ H. subst trades_r. discriminate.
      - intros e0 _ _ H. subst orderbook_r. discriminate.
      - intros e0 _ _ _ H. now rewrite (He e0 H). }
  rewrite Hk.
  assert (Hraised : forall (x : res json) (d : json) (e : exn),
            match x with
            | Ok v => get_default v "data" (JArr [])
            | Err e0 => Err e0
            end = Ok d -> x = Err e -> False).
  { intros x d e H ->. discriminate. }
  pose proof (can_take_first_spec o) as Fo.
  pose proof (can_take_first_spec k) as Fk.
  destruct (can_take_first o) eqn:Eo.
  2:{ destruct Fo as (e & ->). cbn [fst snd].
      repeat split; try discriminate; auto; try (intros; exfalso; eauto; fail).
      intros [(c0 & t0 & o0 & k0 & _ & _ & [= <-] & _ & H & _) _]. congruence. }
  destruct Fo as (o1 & ->).
  destruct (can_take_first k) eqn:Ek.
  2:{ destruct Fk as (e & ->). cbn [fst snd].
      repeat split; try discriminate; auto; try (intros; exfalso; eauto; fail).
      intros [(c0 & t0 & o0 & k0 & _ & _ & _ & [= <-] & _ & H) _]. congruence. }
  destruct Fk as (k1 & ->).
  assert (Hcomplete : exists c0 t0 o0 k0,
            Some c = Some c0 /\ Some t = Some t0 /\ Some o = Some o0 /\
            Some k = Some k0 /\ can_take_first o0 = true /\ can_take_first k0 = true).
  { exists c, t, o, k. auto 10. }
  destruct (fault w path) eqn:Hf; cbn [fst snd add_file fs tracebacks].
  - repeat split; try discriminate; auto; try (intros; exfalso; eauto; fail).
    intros _. eexists. split; [reflexivity|]. repeat split.
  - repeat split; try discriminate; auto; try (intros; exfalso; eauto; fail).
    intros [_ H]. discriminate.
  - repeat split; try discriminate; auto; try (intros; exfalso; eauto; fail).
    + intros [_ H]. discriminate.
    + intros e [= <-]. right. auto.
Qed.

(* ------------------------------------------------------------------ *)
(** ** The connection attempt with its keepalive task *)

Lemma subscribe_all_sends (c : client) (w : world) :
  _ws c = true ->
  _subscriptions c <> [] ->
  _subscribe_all true (c, w) = (Ok tt, (c, add_sent (subscribe_request (_subscriptions c)) w)) /\
  _subscribe_all false (c, w) = (Err ConnectionError, (c, w)).
Proof.
  intros Hws Hsubs. unfold _subscribe_all, _send, bind, gets, effect, ret, raise.
  cbn [fst snd]. destruct (_subscriptions c) as [|sub subs]; [contradiction|].
  cbn [fst snd]. rewrite Hws. cbn [negb]. split; reflexivity.
Qed.

Lemma ping_loop_frame :
  forall (sends : list bool) (s : state),
    fst (snd (_ping_loop sends s)) = fst s /\
    world_frame (snd s) (snd (snd (_ping_loop sends s))).
Proof.
  intros sends s.
  destruct (_stop (fst s) || negb (_ws (fst s))) eqn:E.
  - rewrite ping_loop_idle.
    + split; [reflexivity|apply world_frame_refl].
    + apply orb_true_iff in E. destruct E as [E|E]; [now left|right].
      now destruct (_ws (fst s)).
  - apply orb_false_iff in E. destruct E as [E1 E2].
    apply negb_false_iff in E2. destruct s as [c w]. cbn [fst] in *.
    rewrite ping_loop_running by assumption. cbn [fst snd].
    split; [reflexivity|]. unfold world_frame. cbn. auto 10.
Qed.

Section KeepaliveTask.

Variable json_loads : string -> option json.

(** [_connect_once], step by step. *)
Lemma connect_once_steps (a : attempt) (s : state) :
  _connect_once json_loads a s =
  match _subscriptions (fst s) with
  | [] => (Err AssertionError, s)
  | _ :: _ =>
      if negb (connect_ok a) then (Err ConnectionError, s)
      else
        match _subscribe_all (send_ok a) (set_ws true (fst s), snd s) with
        | (Err e, s1) => (Err e, s1)
        | (Ok _, s1) =>
            (receive json_loads (inbound a) ;;
             if closed_ok a then ret tt else raise ConnectionError)%py s1
        end
  end.
Proof.
  unfold _connect_once.
  unfold bind at 1. unfold gets at 1.
  destruct (_subscriptions (fst s)) as [|sub subs].
  - reflexivity.
  - unfold bind at 1. unfold ret at 1.
    unfold bind at 1.
    destruct (connect_ok a); cbn [negb]; [|reflexivity].
    unfold ret at 1. unfold bind at 1. unfold modify at 1.
    unfold bind at 1.
    destruct (_subscribe_all (send_ok a) (set_ws true (fst s), snd s)) as [[u|e] s1];
      reflexivity.
Qed.

(** How [_connect_once_tasks] extends [_connect_once]: they agree on the
    attempts that end before the task is created; on the others the task's
    pings are added, and the attempt ends in [CancelledError] when the task
    is still pending. *)
Lemma connect_once_tasks_extends (x : session) (s : state) :
  let old := _connect_once json_loads (net x) s in
  if established (net x) s then
    let p := _ping_loop (ping_sends x) (snd old) in
    _connect_once_tasks json_loads x s =
    (match fst p with
     | Pending => Cancelled
     | Finished => to_outcome (fst old)
     end, snd p)
  else
    _connect_once_tasks json_loads x s = (to_outcome (fst old), snd old).
Proof.
  cbn zeta. rewrite connect_once_steps.
  unfold established, _connect_once_tasks.
  destruct (_subscriptions (fst s)) as [|sub subs] eqn:Hsubs; [reflexivity|].
  destruct (connect_ok (net x)); cbn [negb andb]; [|reflexivity].
  destruct (subscribe_all_sends (set_ws true (fst s)) (snd s)) as [Hs1 Hs2];
    [reflexivity|cbn; congruence|].
  destruct (send_ok (net x)).
  - rewrite Hs1.
    match goal with
    | |- context [bind ?m ?f ?s1] => destruct (bind m f s1) as [r s2]
    end.
    cbn [fst snd].
    destruct (_ping_loop (ping_sends x) s2) as [[|] s3]; reflexivity.
  - rewrite Hs2. reflexivity.
Qed.

Lemma connect_once_tasks_frame (x : session) (s : state) :
  let s' := snd (_connect_once_tasks json_loads x s) in
  client_frame (fst s) (fst s') /\
  grows s s' /\
  sleeps (snd s') = sleeps (snd s) /\
  tracebacks (snd s') = tracebacks (snd s) /\
  fs (snd s') = fs (snd s).
Proof.
  intros s'. subst s'. unfold _connect_once_tasks.
  destruct (_subscriptions (fst s)) as [|sub subs] eqn:Hsubs.
  { cbn [snd]. split; [apply client_frame_refl|]. split; [apply grows_refl|auto]. }
  destruct (connect_ok (net x)); cbn [negb].
  2:{ cbn [snd]. split; [apply client_frame_refl|]. split; [apply grows_refl|auto]. }
  destruct (subscribe_all_sends (set_ws true (fst s)) (snd s)) as [Hs1 Hs2];
    [reflexivity|cbn; congruence|].
  destruct (send_ok (net x)).
  - rewrite Hs1. unfold bind.
    match goal with
    | |- context [receive json_loads (inbound (net x)) ?s1] =>
        pose proof (receive_grows json_loads (inbound (net x)) s1) as Hg;
        pose proof (receive_rest json_loads (inbound (net x)) s1) as Hr;
        destruct (receive json_loads (inbound (net x)) s1) as [r s2]
    end.
    cbn zeta in Hr. cbn [fst snd] in Hg, Hr. destruct Hr as (Hw & Hc & _).
    assert (Hbody : forall r0 : res unit,
              exists r1, (let '(p, s3) := _ping_loop (ping_sends x) s2 in
                          match p with
                          | Pending => (Cancelled, s3)
                          | Finished => (to_outcome r0, s3)
                          end) = (r1, snd (_ping_loop (ping_sends x) s2))).
    { intros r0. destruct (_ping_loop (ping_sends x) s2) as [[|] s3]; eexists; reflexivity. }
    destruct (ping_loop_frame (ping_sends x) s2) as [Hpc (P1 & P2 & P3 & P4 & P5)].
    assert (Hgoal : forall r1 : outcome,
              client_frame (fst s) (fst (snd (r1, snd (_ping_loop (ping_sends x) s2)))) /\
              grows s (snd (r1, snd (_ping_loop (ping_sends x) s2))) /\
              sleeps (snd (snd (r1, snd (_ping_loop (ping_sends x) s2)))) = sleeps (snd s) /\
              tracebacks (snd (snd (r1, snd (_ping_loop (ping_sends x) s2)))) = tracebacks (snd s) /\
              fs (snd (snd (r1, snd (_ping_loop (ping_sends x) s2)))) = fs (snd s)).
    { intros r1. cbn [snd]. rewrite Hpc, P1, P3, P4, Hw. cbn [sleeps tracebacks fs add_sent].
      split; [|split; [|repeat split]].
      - eapply client_frame_trans; [|exact Hc]. unfold client_frame. cbn. auto.
      - eapply grows_trans; [|apply grows_same_buffers with (s := s2); now rewrite Hpc].
        eapply grows_trans; [|exact Hg]. apply grows_same_buffers. reflexivity. }
    destruct r as [u|e].
    + destruct (closed_ok (net x)); unfold ret, raise; cbn [fst snd].
      * destruct (Hbody (Ok tt)) as [r1 ->]. apply Hgoal.
      * destruct (Hbody (Err ConnectionError)) as [r1 ->]. apply Hgoal.
    + destruct (Hbody (Err e)) as [r1 ->]. apply Hgoal.
  - rewrite Hs2. cbn [fst snd]. split; [|split; [|repeat split]].
    + unfold client_frame. cbn. auto.
    + apply grows_same_buffers. reflexivity.
Qed.

(** An attempt that gets as far as the keepalive task, with a task that is
    still pending when the stream ends. *)
Lemma connect_once_tasks_cancelled (x : session) (s : state) :
  _subscriptions (fst s) <> [] ->
  _stop (fst s) = false ->
  connect_ok (net x) = true ->
  send_ok (net x) = true ->
  forallb (fun b => b) (ping_sends x) = true ->
  fst (_connect_once_tasks json_loads x s) = Cancelled /\
  sent (snd (snd (_connect_once_tasks json_loads x s))) =
    sent (snd s) ++ subscribe_request (_subscriptions (fst s))
                 :: repeat ping_payload (List.length (ping_sends x)).
Proof.
  intros Hsubs Hrun Hc Hs Hp. unfold _connect_once_tasks.
  destruct (_subscriptions (fst s)) as [|sub subs] eqn:E; [contradiction|].
  rewrite Hc, Hs. cbn [negb].
  destruct (subscribe_all_sends (set_ws true (fst s)) (snd s)) as [Hs1 _];
    [reflexivity|cbn; congruence|].
  rewrite Hs1. unfold bind.
  match goal with
  | |- context [receive json_loads (inbound (net x)) ?s1] =>
      pose proof (receive_rest json_loads (inbound (net x)) s1) as Hr;
      destruct (receive json_loads (inbound (net x)) s1) as [r s2]
  end.
  cbn zeta in Hr. cbn [fst snd] in Hr.
  destruct Hr as (Hw & (_ & _ & _ & _ & Hst) & Hws).
  cbn [_stop _ws set_ws] in Hst, Hws.
  assert (Hleading : leading_true (ping_sends x) = List.length (ping_sends x)).
  { clear -Hp. induction (ping_sends x) as [|h t IH]; [reflexivity|].
    cbn in Hp. apply andb_true_iff in Hp. destruct Hp as [-> Hp].
    cbn. now rewrite IH. }
  assert (Hping : _ping_loop (ping_sends x) s2 =
                  (Pending,
                   (fst s2,
                    mkWorld (fs (snd s2)) (fault (snd s2)) (tracebacks (snd s2))
                            (sleeps (snd s2))
                            (sent (snd s2)
                             ++ repeat ping_payload (List.length (ping_sends x)))
                            (flushed_at (snd s2))))).
  { destruct s2 as [c2 w2]. cbn [fst snd] in *.
    rewrite ping_loop_running by congruence. now rewrite Hp, Hleading. }
  assert (Hfin : forall r0 : res unit,
            (let '(p, s3) := _ping_loop (ping_sends x) s2 in
             match p with
             | Pending => (Cancelled, s3)
             | Finished => (to_outcome r0, s3)
             end) = (Cancelled, snd (_ping_loop (ping_sends x) s2))).
  { intros r0. rewrite Hping. reflexivity. }
  assert (Hsent : sent (snd (snd (_ping_loop (ping_sends x) s2))) =
                  sent (snd s) ++ subscribe_request (sub :: subs)
                               :: repeat ping_payload (List.length (ping_sends x))).
  { rewrite Hping. cbn [fst snd sent]. rewrite Hw.
    cbn [sent add_sent _subscriptions set_ws]. rewrite E, <- app_assoc. reflexivity. }
  destruct r as [u|e].
  - destruct (closed_ok (net x)); unfold ret, raise; cbn [fst snd];
      rewrite Hfin; cbn [fst snd]; auto.
  - rewrite Hfin. cbn [fst snd]. auto.
Qed.

(** X17. The end of an established connection stops the client.  When an
    attempt has subscribed and its keepalive task never had a failed send,
    the end of the stream, clean or not, makes [_connect_once] raise
    [CancelledError]; [except Exception] does not catch it, so [run_forever]
    ends there with [_stop] set: no traceback, no backoff sleep, no further
    attempt.  That attempt sent one subscribe request for the whole registry
    and then only pings. *)
Theorem end_of_stream_with_pending_keepalive_stops_the_client
    (rotate_seconds : Z) (x : session) (rest : list session) (s : state) :
  _subscriptions (fst s) <> [] ->
  connect_ok (net x) = true ->
  send_ok (net x) = true ->
  forallb (fun b => b) (ping_sends x) = true ->
  let r := run_forever_tasks json_loads rotate_seconds (x :: rest) s in
  fst r = Cancelled /\
  r = run_forever_tasks json_loads rotate_seconds [x] s /\
  _stop (fst (snd r)) = true /\
  sleeps (snd (snd r)) = sleeps (snd s) /\
  tracebacks (snd (snd r)) = tracebacks (snd s) /\
  sent (snd (snd r)) =
    sent (snd s) ++ subscribe_request (_subscriptions (fst s))
                 :: repeat ping_payload (List.length (ping_sends x)).
Proof.
  intros Hsubs Hc Hs Hp r. subst r. unfold run_forever_tasks.
  cbn [reconnect_loop_tasks fst _stop set_stop].
  destruct (connect_once_tasks_cancelled x (set_stop false (fst s), snd s))
    as [Hcan Hsent]; auto.
  destruct (connect_once_tasks_frame x (set_stop false (fst s), snd s))
    as (_ & _ & Hsl & Htb & _).
  cbn zeta in Hsl, Htb.
  destruct (_connect_once_tasks json_loads x (set_stop false (fst s), snd s))
    as [o s1].
  cbn [fst snd] in *. subst o. cbn [fst snd _stop set_stop].
  repeat split; auto.
Qed.

End KeepaliveTask.

Section ReconnectWithKeepalive.

Variable json_loads : string -> option json.

Lemma connect_once_tasks_early (x : session) (s : state) :
  _subscriptions (fst s) = [] \/ connect_ok (net x) && send_ok (net x) = false ->
  exists e, fst (_connect_once_tasks json_loads x s) = Raised e.
Proof.
  intros H. unfold _connect_once_tasks.
  destruct (_subscriptions (fst s)) as [|sub subs] eqn:Hsubs;
    [eexists; reflexivity|].
  destruct H as [H|H]; [discriminate|].
  destruct (connect_ok (net x)); cbn [negb]; [|eexists; reflexivity].
  cbn [andb] in H. rewrite H.
  destruct (subscribe_all_sends (set_ws true (fst s)) (snd s)) as [_ Hs2];
    [reflexivity|cbn; congruence|].
  rewrite Hs2. eexists. reflexivity.
Qed.

Lemma reconnect_loop_tasks_backoff :
  forall (script : list session) (d : Q) (s : state),
    _stop (fst s) = false ->
    Forall (fun x => _subscriptions (fst s) = [] \/
                     connect_ok (net x) && send_ok (net x) = false) script ->
    fst (reconnect_loop_tasks json_loads script d s) = Cancelled /\
    sleeps (snd (snd (reconnect_loop_tasks json_loads script d s))) =
      sleeps (snd s)
      ++ backoff_seq (reconnect_max_delay_seconds (client_config (fst s))) d
                     (List.length script) /\
    List.length (tracebacks (snd (snd (reconnect_loop_tasks json_loads script d s)))) =
      (List.length (tracebacks (snd s)) + List.length script)%nat.
Proof.
  induction script as [|x rest IH]; intros d s Hrun Hall.
  - cbn. rewrite app_nil_r, Nat.add_0_r. auto.
  - inversion Hall as [|x0 l0 Hx Hrest]; subst.
    cbn [reconnect_loop_tasks]. rewrite Hrun.
    destruct (connect_once_tasks_early x s Hx) as [e He].
    destruct (connect_once_tasks_frame json_loads x s)
      as ((C1 & C2 & C3 & C4 & C5) & _ & Hsl & Htb & _).
    cbn zeta in *.
    destruct (_connect_once_tasks json_loads x s) as [o s1].
    cbn [fst snd] in *. subst o.
    destruct (IH (py_min (d * 2) (reconnect_max_delay_seconds (client_config (fst s1))))
                 (fst s1, add_sleep d (print_exc e (snd s1))))
      as (Hout & Hsleeps & Hlen).
    + cbn [fst]. congruence.
    + cbn [fst]. rewrite C3. exact Hrest.
    + cbn [fst snd] in *. split; [exact Hout|]. split.
      * rewrite Hsleeps. cbn [sleeps add_sleep print_exc backoff_seq List.length].
        rewrite Hsl, C1, <- app_assoc. reflexivity.
      * rewrite Hlen. cbn [tracebacks add_sleep print_exc List.length].
        rewrite length_app, Htb. cbn [List.length]. lia.
Qed.

(** X18. Failures before the keepalive task exists are the ones the reconnect
    loop retries.  When every attempt of a run finds no subscriptions, or
    cannot open the transport, or cannot send the subscribe request, each
    attempt is printed and followed by a sleep, the delays doubling from the
    base delay up to the maximum, for as long as the process lives. *)
Theorem early_failures_are_retried_with_backoff
    (rotate_seconds : Z) (script : list session) (s : state) :
  Forall (fun x => _subscriptions (fst s) = [] \/
                   connect_ok (net x) && send_ok (net x) = false) script ->
  let r := run_forever_tasks json_loads rotate_seconds script s in
  sleeps (snd (snd r)) =
    sleeps (snd s)
    ++ backoff_seq (reconnect_max_delay_seconds (client_config (fst s)))
                   (reconnect_base_delay_seconds (client_config (fst s)))
                   (List.length script) /\
  List.length (tracebacks (snd (snd r))) =
    (List.length (tracebacks (snd s)) + List.length script)%nat.
Proof.
  intros Hall r. subst r. unfold run_forever_tasks.
  destruct (reconnect_loop_tasks_backoff script
              (reconnect_base_delay_seconds
                 (client_config (fst (set_stop false (fst s), snd s))))
              (set_stop false (fst s), snd s))
    as (_ & Hsl & Hlen); [reflexivity|exact Hall|].
  destruct (reconnect_loop_tasks json_loads script _ _) as [o s'].
  cbn [fst snd] in *. auto.
Qed.

Lemma reconnect_loop_tasks_grows :
  forall (script : list session) (d : Q) (s : state),
    grows s (snd (reconnect_loop_tasks json_loads script d s)) /\
    client_frame (fst s) (fst (snd (reconnect_loop_tasks json_loads script d s))).
Proof.
  induction script as [|x rest IH]; intros d s; cbn [reconnect_loop_tasks].
  - cbn [snd]. split; [apply grows_refl|apply client_frame_refl].
  - destruct (_stop (fst s)).
    + cbn [snd]. split; [apply grows_refl|apply client_frame_refl].
    + destruct (connect_once_tasks_frame json_loads x s) as (Hc & Hg & _).
      cbn zeta in *.
      destruct (_connect_once_tasks json_loads x s) as [[|e|] s1]; cbn [fst snd] in *.
      * destruct (IH (reconnect_base_delay_seconds (client_config (fst s1))) s1)
          as [Hg' Hc'].
        split; [eapply grows_trans|eapply client_frame_trans]; eassumption.
      * destruct (IH (py_min (d * 2)
                             (reconnect_max_delay_seconds (client_config (fst s1))))
                     (fst s1, add_sleep d (print_exc e (snd s1))))
          as [Hg' Hc'].
        split.
        -- eapply grows_trans; [exact Hg|].
           eapply grows_trans; [|exact Hg']. apply grows_same_buffers. reflexivity.
        -- eapply client_frame_trans; [exact Hc|exact Hc'].
      * auto.
Qed.

End ReconnectWithKeepalive.

(* ------------------------------------------------------------------ *)
(** ** The further properties on concrete inputs *)


Lemma second_flush_is_a_no_op_witness :
  let r := flush_buffers Samples.writer_config
             [(Samples.trades_key, [Samples.trade_envelope "1"])]
             1700000060000 Samples.read_only_disk in
  flush_buffers Samples.writer_config (fst r) 1700000120000 (snd r) = r.
Proof.
  destruct (second_flush_is_a_no_op Samples.writer_config
              [(Samples.trades_key, [Samples.trade_envelope "1"])]
              1700000060000 1700000120000 Samples.read_only_disk)
    as (_ & _ & H).
  - reflexivity.
  - exact H.
Defined.

Lemma healthy_flush_writes_each_nonempty_entry_witness :
  let r := flush_buffers Samples.writer_config
             [((AStr "ETH-USDT", AStr "books"), []);
              (Samples.trades_key, [Samples.trade_envelope "1"]);
              ((AStr "ETH-USDT", AStr "trades"), [JInt 7])]
             1700000060000 Samples.healthy_disk in
  fs (snd r) =
    [("./okx_out/realtime/BTC-USDT_trades_20231114T221420.json",
      Doc (JArr [Samples.trade_envelope "1"]));
     ("./okx_out/realtime/ETH-USDT_trades_20231114T221420.json",
      Doc (JArr [JInt 7]))].
Proof.
  destruct (healthy_flush_writes_each_nonempty_entry Samples.writer_config
              [((AStr "ETH-USDT", AStr "books"), []);
               (Samples.trades_key, [Samples.trade_envelope "1"]);
               ((AStr "ETH-USDT", AStr "trades"), [JInt 7])]
              1700000060000 Samples.healthy_disk)
    as (Hfs & _).
  - reflexivity.
  - reflexivity.
  - exact Hfs.
Defined.

Lemma colliding_file_names_overwrite_witness :
  let r := flush_buffers Samples.writer_config
             [((AStr "BTC_USDT", AStr "trades"), [JInt 1]);
              ((AStr "BTC", AStr "USDT_trades"), [JInt 2])]
             1700000060000 Samples.healthy_disk in
  read_file (fs (snd r)) "./okx_out/realtime/BTC_USDT_trades_20231114T221420.json"
    = Some (Doc (JArr [JInt 2])) /\
  fst r = [((AStr "BTC_USDT", AStr "trades"), []);
           ((AStr "BTC", AStr "USDT_trades"), [])].
Proof.
  destruct (colliding_file_names_overwrite Samples.writer_config 1700000060000
              Samples.healthy_disk "BTC" "USDT" "trades" [JInt 1] [JInt 2])
    as (_ & _ & Hread & Hb).
  - discriminate.
  - discriminate.
  - reflexivity.
  - split; [exact Hread|exact Hb].
Defined.


Lemma flushes_are_an_interval_apart_witness :
  exists new,
    flushed_at (snd (_flush_loop 60
                       [1700000001000; 1700000060000; 1700000061000; 1700000125000]
                       (set_last_flush_ms 1700000000000 Samples.trades_client,
                        Samples.healthy_disk)))
      = new /\
    spaced 60000 1700000000000 new.
Proof.
  destruct (flushes_are_an_interval_apart 60
              [1700000001000; 1700000060000; 1700000061000; 1700000125000]
              (set_last_flush_ms 1700000000000 Samples.trades_client)
              Samples.healthy_disk)
    as (new & Hlog & Hsp & _).
  - reflexivity.
  - discriminate.
  - repeat constructor; discriminate.
  - exists new. split; [exact Hlog|exact Hsp].
Defined.


Lemma ping_loop_stops_at_first_failed_send_witness :
  let r := _ping_loop [true; true; false; true]
             (set_ws true Samples.trades_client, Samples.healthy_disk) in
  fst r = Finished /\
  sent (snd (snd r)) = [ping_payload; ping_payload].
Proof.
  destruct (ping_loop_stops_at_first_failed_send [true; true; false; true]
              (set_ws true Samples.trades_client, Samples.healthy_disk))
    as (H & _).
  destruct H as (Hend & _ & Hsent & _); [reflexivity|reflexivity|].
  split; [exact Hend|exact Hsent].
Defined.

Lemma save_rest_data_writes_snapshot_witness :
  save_rest_data "AVAX-USDT" "./okx_out/history" Samples.t0
    (Ok (JObj [("code", JStr "0"); ("data", JArr [JArr [JStr "1"; JStr "2"]])]))
    (Ok (JObj [("code", JStr "0")]))
    (Ok (JObj [("data", JArr [JObj [("asks", JArr [])]; JObj []])]))
    (Ok (JObj [("data", JArr [])]))
    Samples.healthy_disk
  = (Ok tt,
     add_file "./okx_out/history/AVAX-USDT.json"
       (Doc (JObj [("instId", JStr "AVAX-USDT");
                   ("timestamp", JStr "2023-11-14T22:13:20Z");
                   ("source", JStr "REST");
                   ("data", JObj [("candles", JArr [JArr [JStr "1"; JStr "2"]]);
                                  ("trades", JArr []);
                                  ("orderbook", JObj [("asks", JArr [])]);
                                  ("tickers", JObj [])])]))
       Samples.healthy_disk).
Proof.
  apply (save_rest_data_writes_snapshot "AVAX-USDT" "./okx_out/history" Samples.t0
           _ _ _ _
           [JArr [JStr "1"; JStr "2"]] [] [JObj [("asks", JArr [])]; JObj []] []
           Samples.healthy_disk).
  - eexists. split; [reflexivity|]. left. reflexivity.
  - eexists. split; [reflexivity|]. right. split; reflexivity.
  - eexists. split; [reflexivity|]. left. reflexivity.
  - eexists. split; [reflexivity|]. left. reflexivity.
  - reflexivity.
Defined.

Lemma end_of_stream_with_pending_keepalive_stops_the_client_witness :
  let r := run_forever_tasks JsonLite.loads 60
             [mkSession Samples.subscribed_then_lost [true];
              mkSession Samples.clean_close []]
             (Samples.trades_client, Samples.healthy_disk) in
  fst r = Cancelled /\
  sleeps (snd (snd r)) = [] /\
  tracebacks (snd (snd r)) = [] /\
  _buffers (fst (snd r)) = [(Samples.trades_key, [Samples.trade_envelope "1"])].
Proof.
  destruct (end_of_stream_with_pending_keepalive_stops_the_client JsonLite.loads 60
              (mkSession Samples.subscribed_then_lost [true])
              [mkSession Samples.clean_close []]
              (Samples.trades_client, Samples.healthy_disk))
    as (Hout & _ & _ & Hsl & Htb & _).
  - discriminate.
  - reflexivity.
  - reflexivity.
  - reflexivity.
  - split; [exact Hout|]. split; [exact Hsl|]. split; [exact Htb|].
    vm_compute. reflexivity.
Defined.

Lemma early_failures_are_retried_with_backoff_witness :
  sleeps (snd (snd (run_forever_tasks JsonLite.loads 60
                      [mkSession Samples.refused [];
                       mkSession (mkAttempt true false [] true) [];
                       mkSession Samples.refused []]
                      (Samples.trades_client, Samples.healthy_disk))))
  = [1; 2; 4]%Q.
Proof.
  destruct (early_failures_are_retried_with_backoff JsonLite.loads 60
              [mkSession Samples.refused [];
               mkSession (mkAttempt true false [] true) [];
               mkSession Samples.refused []]
              (Samples.trades_client, Samples.healthy_disk))
    as (H & _).
  - repeat constructor; right; reflexivity.
  - exact H.
Defined.

(* ------------------------------------------------------------------ *)
(** ** The reconnect delay over whole attempts *)

Section ReconnectDelay.

Variable json_loads : string -> option json.

(** One iteration of the reconnect loop. *)
Lemma reconnect_loop_tasks_cons
    (x : session) (rest : list session) (d : Q) (s : state) :
  _stop (fst s) = false ->
  reconnect_loop_tasks json_loads (x :: rest) d s =
  match _connect_once_tasks json_loads x s with
  | (Returned, s1) =>
      reconnect_loop_tasks json_loads rest
        (reconnect_base_delay_seconds (client_config (fst s1))) s1
  | (Raised e, s1) =>
      reconnect_loop_tasks json_loads rest
        (py_min (d * 2) (reconnect_max_delay_seconds (client_config (fst s1))))
        (fst s1, add_sleep d (print_exc e (snd s1)))
  | (Cancelled, s1) => (Cancelled, s1)
  end.
Proof. intros Hrun. cbn [reconnect_loop_tasks]. now rewrite Hrun. Qed.

(** A run of attempts that fail before the keepalive task is created, in
    front of any other attempts: each is printed and followed by a sleep,
    and the loop goes on with the attempts behind them. *)
Lemma reconnect_loop_tasks_early_prefix :
  forall (pre : list session) (d : Q) (s : state),
    _stop (fst s) = false ->
    Forall (fun y => _subscriptions (fst s) = [] \/
                     connect_ok (net y) && send_ok (net y) = false) pre ->
    exists d1 s1,
      (forall tail,
         reconnect_loop_tasks json_loads (pre ++ tail) d s =
         reconnect_loop_tasks json_loads tail d1 s1) /\
      client_frame (fst s) (fst s1) /\
      sleeps (snd s1) =
        sleeps (snd s)
        ++ backoff_seq (reconnect_max_delay_seconds (client_config (fst s))) d
                       (List.length pre) /\
      List.length (tracebacks (snd s1)) =
        (List.length (tracebacks (snd s)) + List.length pre)%nat /\
      sent (snd s1) = sent (snd s).
Proof.
  induction pre as [|y pre IH]; intros d s Hrun Hall.
  - exists d, s. cbn [app List.length backoff_seq].
    rewrite app_nil_r, Nat.add_0_r.
    repeat split; auto.
  - inversion Hall as [|y0 l0 Hy Hpre]; subst.
    destruct (connect_once_tasks_early json_loads y s Hy) as [e He].
    destruct (connect_once_tasks_frame json_loads y s)
      as ((C1 & C2 & C3 & C4 & C5) & _ & Hsl & Htb & _).
    assert (Hsent : sent (snd (snd (_connect_once_tasks json_loads y s))) = sent (snd s)).
    { clear -Hy. unfold _connect_once_tasks.
      destruct (_subscriptions (fst s)) as [|sub subs] eqn:Hsubs; [reflexivity|].
      destruct Hy as [Hy|Hy]; [discriminate|].
      destruct (connect_ok (net y)); cbn [negb]; [|reflexivity].
      cbn [andb] in Hy. rewrite Hy.
      destruct (subscribe_all_sends (set_ws true (fst s)) (snd s)) as [_ Hs2];
        [reflexivity|cbn; congruence|].
      rewrite Hs2. reflexivity. }
    cbn zeta in *.
    destruct (_connect_once_tasks json_loads y s) as [o s1] eqn:E.
    cbn [fst snd] in *. subst o.
    destruct (IH (py_min (d * 2) (reconnect_max_delay_seconds (client_config (fst s1))))
                 (fst s1, add_sleep d (print_exc e (snd s1))))
      as (d2 & s2 & Htail & Hc & Hsleeps & Hlen & Hsent2).
    + cbn [fst]. congruence.
    + cbn [fst]. rewrite C3. exact Hpre.
    + exists d2, s2. cbn [fst snd] in *. split; [|split; [|split; [|split]]].
      * intros tail. rewrite <- app_comm_cons.
        rewrite reconnect_loop_tasks_cons by exact Hrun.
        rewrite E. apply Htail.
      * eapply client_frame_trans; [|exact Hc]. unfold client_frame. auto.
      * rewrite Hsleeps. cbn [sleeps add_sleep print_exc backoff_seq List.length].
        rewrite Hsl, C1, <- app_assoc. reflexivity.
      * rewrite Hlen. cbn [tracebacks add_sleep print_exc List.length].
        rewrite length_app, Htb. cbn [List.length]. lia.
      * rewrite Hsent2. cbn [sent add_sleep print_exc]. exact Hsent.
Qed.

(** C6 at a run of failed attempts that contains an established one.  With
    base delay 1 and maximum delay 30, the attempts that fail before the
    keepalive task is created wait 1, 2, 4, 8, 16 and then 30; but at the
    first attempt of the run that had opened the transport and sent its
    subscribe request, and whose keepalive task is still pending when the
    stream ends (on an abnormal close as on a clean one), [run_forever]
    ends in [CancelledError]: that failure is not printed, no delay is
    waited after it, and the attempts behind it are never made. *)
Theorem established_attempt_ends_the_backoff_run
    (rotate_seconds : Z) (pre : list session) (x : session) (rest : list session)
    (s : state) :
  _subscriptions (fst s) <> [] ->
  reconnect_base_delay_seconds (client_config (fst s)) = 1%Q ->
  reconnect_max_delay_seconds (client_config (fst s)) = 30%Q ->
  Forall (fun y => connect_ok (net y) && send_ok (net y) = false) pre ->
  connect_ok (net x) = true ->
  send_ok (net x) = true ->
  forallb (fun b => b) (ping_sends x) = true ->
  let r := run_forever_tasks json_loads rotate_seconds (pre ++ x :: rest) s in
  fst r = Cancelled /\
  r = run_forever_tasks json_loads rotate_seconds (pre ++ [x]) s /\
  sleeps (snd (snd r)) =
    sleeps (snd s)
    ++ firstn (List.length pre) [1; 2; 4; 8; 16]%Q
    ++ repeat 30%Q (List.length pre - 5) /\
  List.length (tracebacks (snd (snd r))) =
    (List.length (tracebacks (snd s)) + List.length pre)%nat.
Proof.
  intros Hsubs Hbase Hmax Hpre Hc Hs Hp r. subst r. unfold run_forever_tasks.
  destruct (reconnect_loop_tasks_early_prefix pre
              (reconnect_base_delay_seconds
                 (client_config (fst (set_stop false (fst s), snd s))))
              (set_stop false (fst s), snd s))
    as (d1 & s1 & Htail & (C1 & C2 & C3 & C4 & C5) & Hsl & Hlen & _).
  { reflexivity. }
  { eapply Forall_impl; [|exact Hpre]. intros y Hy. now right. }
  rewrite (Htail (x :: rest)), (Htail [x]).
  cbn [fst snd client_config _subscriptions _stop set_stop] in *.
  assert (Hrun1 : _stop (fst s1) = false) by congruence.
  rewrite !reconnect_loop_tasks_cons by exact Hrun1.
  destruct (connect_once_tasks_cancelled json_loads x s1) as [Hcan _]; auto.
  { congruence. }
  destruct (connect_once_tasks_frame json_loads x s1) as (_ & _ & Hsl2 & Htb2 & _).
  cbn zeta in Hsl2, Htb2.
  destruct (_connect_once_tasks json_loads x s1) as [o s2].
  cbn [fst snd] in *. subst o. cbn [fst snd].
  split; [reflexivity|]. split; [reflexivity|]. split.
  - rewrite Hsl2, Hsl, Hbase, Hmax. now rewrite backoff_seq_1_30.
  - rewrite Htb2. exact Hlen.
Qed.


End ReconnectDelay.

(* ------------------------------------------------------------------ *)
(** ** The reconnect delay and the file of a key on concrete inputs *)



Lemma established_attempt_ends_the_backoff_run_witness :
  let r := run_forever_tasks JsonLite.loads 60
             [mkSession Samples.refused []; mkSession Samples.refused [];
              mkSession Samples.subscribed_then_lost [true];
              mkSession Samples.refused []; mkSession Samples.refused []]
             (Samples.trades_client, Samples.healthy_disk) in
  fst r = Cancelled /\
  sleeps (snd (snd r)) = [1; 2]%Q /\
  List.length (tracebacks (snd (snd r))) = 2%nat.
Proof.
  destruct (established_attempt_ends_the_backoff_run JsonLite.loads 60
              [mkSession Samples.refused []; mkSession Samples.refused []]
              (mkSession Samples.subscribed_then_lost [true])
              [mkSession Samples.refused []; mkSession Samples.refused []]
              (Samples.trades_client, Samples.healthy_disk))
    as (Hout & _ & Hsl & Htb).
  - discriminate.
  - reflexivity.
  - reflexivity.
  - repeat constructor.
  - reflexivity.
  - reflexivity.
  - reflexivity.
  - split; [exact Hout|]. split; [exact Hsl|exact Htb].
Defined.

(** C5 at two keys with the same file name: the key
    [('BTC_USDT', 'trades')] holds one envelope, the disk is healthy, and
    the flush prints nothing; yet after the flush its entry is empty and no
    file holds its sequence, because the later key [('BTC', 'USDT_trades')]
    was written to the same path. *)
Lemma colliding_key_leaves_no_file_with_its_sequence :
  let K1 := (AStr "BTC_USDT", AStr "trades") in
  let K2 := (AStr "BTC", AStr "USDT_trades") in
  let b := [(K1, [Samples.trade_envelope "1"]); (K2, [Samples.trade_envelope "2"])] in
  let r := flush_buffers Samples.writer_config b 1700000060000 Samples.healthy_disk in
  dict_wfb b = true /\
  dict_get b K1 = Some [Samples.trade_envelope "1"] /\
  tracebacks (snd r) = [] /\
  dict_get (fst r) K1 = Some [] /\
  read_file (fs (snd r)) (_build_filename Samples.writer_config (fst K1) (snd K1)
                            1700000060000)
    = Some (Doc (JArr [Samples.trade_envelope "2"])) /\
  (forall p, read_file (fs (snd r)) p <> Some (Doc (JArr [Samples.trade_envelope "1"]))).
Proof.
  cbv zeta. split; [reflexivity|]. split; [reflexivity|]. split; [reflexivity|].
  split; [reflexivity|]. split; [vm_compute; reflexivity|].
  intros p.
  change (fs (snd (flush_buffers Samples.writer_config
                     [((AStr "BTC_USDT", AStr "trades"), [Samples.trade_envelope "1"]);
                      ((AStr "BTC", AStr "USDT_trades"), [Samples.trade_envelope "2"])]
                     1700000060000 Samples.healthy_disk)))
    with [("./okx_out/realtime/BTC_USDT_trades_20231114T221420.json",
           Doc (JArr [Samples.trade_envelope "1"]));
          ("./okx_out/realtime/BTC_USDT_trades_20231114T221420.json",
           Doc (JArr [Samples.trade_envelope "2"]))].
  cbn [read_file].
  destruct (String.eqb "./okx_out/realtime/BTC_USDT_trades_20231114T221420.json" p);
    discriminate.
Qed.
